(** * experiment.py: the tweet annotation loop

    A shallow embedding of [src/experiment.py], a script that loads
    [experiment.csv] with pandas, asks the operator for one label per row,
    collects the labels in a NumPy buffer of 1000 entries and, in a
    [finally] block, attaches the buffer as a new column and rewrites the
    file.

    The script is twenty-five lines of Python over two libraries; the
    library calls it makes are embedded here with the behaviour they have
    on the values the script passes them:

    - [np.full(1000, -1)], [ans[i] = val] with [val] a [str]
      (bounds check, then [int(val)], then the 64-bit range check);
    - [pd.read_csv(path, dtype=str)], [edf.iterrows()], [row.text],
      [len(edf.columns)], [edf[col] = ans] (with the index adoption of a
      frame without rows and the length check), [edf.to_csv(path,
      index=False)];
    - [print], [input], f-strings, [try]/[finally].

    A CSV file is represented by its header line and its records of text
    fields. [Pd.read_csv] answers [None] on the files whose reading is not
    embedded here (a first record longer than the header, which pandas
    takes as row labels; column names that pandas' renaming would make
    collide). Strings are sequences of bytes: [PyInt.int] is the
    conversion of ASCII entries, and the properties that depend on an
    entry being refused assume ASCII input. An interrupt reaches the
    program while it is blocked in [input]. *)

From Stdlib Require Import ZArith Lia Ascii String.
From stdpp Require Import base tactics option list strings pretty gmap.

Set Default Proof Using "Type".

(** ** Exceptions *)

Inductive exn : Type :=
  | FileNotFoundError (path : string)
  | EmptyDataError                       (* read_csv: no columns to parse *)
  | ParserError                          (* read_csv: too many fields in a record *)
  | AttributeError (name : string)       (* row.text without such a column *)
  | EOFError                             (* input() at the end of stdin *)
  | KeyboardInterrupt                    (* interrupt while blocked in input() *)
  | IndexError (i size : nat)            (* ans[i] out of bounds *)
  | ValueError_literal (val : string)    (* int(val) raises ValueError *)
  | OverflowError (z : Z)                (* Python int too large for int64 *)
  | ValueError_length (values index : nat). (* Length of values does not match length of index *)

Global Instance exn_eq_dec : EqDecision exn.
Proof. solve_decision. Defined.

(** ** Strings and f-strings *)

Definition nl : string := String "010"%char EmptyString.

(** [f'{n}'] for a Python [int]. *)
Definition str_int (z : Z) : string := pretty z.

(** ** [int(val)] for a [str] in base 10 *)

Module PyInt.

(** Whitespace that [int] strips: [\t \n \v \f \r] and the space. *)
Definition is_space (c : ascii) : bool :=
  let n := nat_of_ascii c in
  ((9 <=? n) && (n <=? 13)) || (n =? 32).

Definition digit_of (c : ascii) : option Z :=
  let n := nat_of_ascii c in
  if (48 <=? n) && (n <=? 57) then Some (Z.of_nat (n - 48)) else None.

Fixpoint lstrip (s : list ascii) : list ascii :=
  match s with
  | c :: s' => if is_space c then lstrip s' else s
  | [] => []
  end.

Definition strip (s : list ascii) : list ascii :=
  rev (lstrip (rev (lstrip s))).

(** digitpart ::= digit (["_"] digit)*
    [after_digit] tells whether the previous character was a digit, the
    only place where an underscore or the end of the literal may stand. *)
Fixpoint digitpart (s : list ascii) (acc : Z) (after_digit : bool) : option Z :=
  match s with
  | [] => if after_digit then Some acc else None
  | c :: s' =>
      match digit_of c with
      | Some d => digitpart s' (10 * acc + d)%Z true
      | None =>
          if Ascii.eqb c "_"%char && after_digit then digitpart s' acc false
          else None
      end
  end.

Definition literal (s : list ascii) : option Z :=
  match s with
  | c :: s' =>
      if Ascii.eqb c "-"%char then Z.opp <$> digitpart s' 0%Z false
      else if Ascii.eqb c "+"%char then digitpart s' 0%Z false
      else digitpart s 0%Z false
  | [] => None
  end.

(** The number of digits in a literal, and the most that [int] converts
    (CPython 3.11 and later: [sys.get_int_max_str_digits()]). *)
Fixpoint digits (s : list ascii) : nat :=
  match s with
  | [] => 0
  | c :: s' => (if digit_of c is Some _ then 1 else 0) + digits s'
  end.

Definition max_str_digits : nat := 4300.

(** [int(val)]: [None] when it raises ValueError, for a literal that is
    not an integer or has more digits than the limit. *)
Definition int (val : string) : option Z :=
  let s := strip (list_ascii_of_string val) in
  if max_str_digits <? digits s then None else literal s.

End PyInt.

(** ** The answer buffer: a NumPy array of [int64] *)

Module Np.

Abbreviation ndarray := (list Z).

Definition int64_min : Z := (- 2 ^ 63)%Z.
Definition int64_max : Z := (2 ^ 63 - 1)%Z.

(** [np.full(size, fill)] *)
Definition full (size : nat) (fill : Z) : ndarray := replicate size fill.

(** What [a[i] = val] makes of a [str]: [int(val)], then the range of
    the element type. *)
Definition coerce (val : string) : exn + Z :=
  match PyInt.int val with
  | None => inl (ValueError_literal val)
  | Some z =>
      if ((int64_min <=? z) && (z <=? int64_max))%Z then inr z
      else inl (OverflowError z)
  end.

(** [a[i] = val] for a non-negative index [i] and a [str] [val]: the item
    is located first (an index past the end raises), then the value is
    converted and stored. Nothing is stored when either step raises. *)
Definition setitem (a : ndarray) (i : nat) (val : string) : exn + ndarray :=
  if decide (i < length a) then
    match coerce val with
    | inl e => inl e
    | inr z => inr (<[i := z]> a)
    end
  else inl (IndexError i (length a)).

End Np.

(** ** The table: the part of pandas the script uses *)

Module Pd.

(** The content of a CSV file, as the parser sees it: the names of the
    header line and, for each further line, its text fields. *)
Record CsvFile : Type := mkCsv {
  header : list string;
  records : list (list string);
}.

Inductive cell : Type :=
  | Str (s : string)
  | NaN
  | Int64 (z : Z).

(** A frame with the default index [RangeIndex(index)], held by column. *)
Record DataFrame : Type := mkDataFrame {
  index : nat;
  series : list (string * list cell);
}.

(** One row, as [iterrows] yields it: the cell of each column. *)
Abbreviation Series := (list (string * cell)).

Global Instance CsvFile_eq_dec : EqDecision CsvFile.
Proof. solve_decision. Defined.
Global Instance cell_eq_dec : EqDecision cell.
Proof. solve_decision. Defined.
Global Instance DataFrame_eq_dec : EqDecision DataFrame.
Proof. solve_decision. Defined.

(** [edf.columns] *)
Definition columns (df : DataFrame) : list string := (series df).*1.

(** The name of column [i] when the header gives none. *)
Definition unnamed (i : nat) (name : string) : string :=
  if decide (name = "") then "Unnamed: " +:+ pretty i else name.

Fixpoint occurrences (n : string) (l : list string) : nat :=
  match l with
  | [] => 0
  | m :: l' => (if decide (m = n) then 1 else 0) + occurrences n l'
  end.

(** Repeated names are told apart: the k-th repetition of [n] is named
    [n.k]. *)
Definition mangle (names : list string) : list string :=
  imap (λ i n, let k := occurrences n (take i names) in
               if decide (k = 0) then n else n +:+ "." +:+ pretty k)
       names.

(** A position keeps its name, or gets one that no position had. *)
Definition renamed_apart (before after : list string) : Prop :=
  Forall (λ p, p.1 = p.2 ∨ p.2 ∉ before) (zip before after).

Global Instance renamed_apart_dec before after :
  Decision (renamed_apart before after).
Proof. unfold renamed_apart. apply _. Defined.

(** The column names [read_csv] makes of a header line. The answer is
    [None] when a name it makes up is also a name of the header or of
    another column: there the result depends on the order in which pandas
    renames. *)
Definition parsed_names (header : list string) : option (list string) :=
  let given := imap unnamed header in
  let names := mangle given in
  if decide (renamed_apart header given ∧ renamed_apart given names
             ∧ NoDup names)
  then Some names else None.

(** Fields that [read_csv] reads as missing, also under [dtype=str]. *)
Definition na_values : list string :=
  [""; "#N/A"; "#N/A N/A"; "#NA"; "-1.#IND"; "-1.#QNAN"; "-NaN"; "-nan";
   "1.#IND"; "1.#QNAN"; "<NA>"; "N/A"; "NA"; "NULL"; "NaN"; "None";
   "n/a"; "nan"; "null"].

Definition parse_field (t : string) : cell :=
  if decide (t ∈ na_values) then NaN else Str t.

(** The first record has more fields than the header: pandas reads the
    leading fields as row labels. *)
Definition labelled_rows (t : CsvFile) : Prop :=
  match records t with
  | r :: _ => length (header t) < length r
  | [] => False
  end.

Global Instance labelled_rows_dec t : Decision (labelled_rows t).
Proof. unfold labelled_rows. destruct (records t); apply _. Defined.

(** [pd.read_csv(path, dtype=str)] on the content of the file. A file
    without a header line has no columns to parse; a record that is longer
    than the header is an error when it is not the first one; a shorter
    one is filled with missing values. [None]: the reading is not embedded
    (row labels taken from the records, names that collide, and tables
    that no file has: records without a header, a record without a
    field). *)
Definition read_csv (t : CsvFile) : option (exn + DataFrame) :=
  if decide (header t = []) then
    if decide (records t = []) then Some (inl EmptyDataError) else None
  else if decide ([] ∈ records t ∨ labelled_rows t) then None
  else
    names ← parsed_names (header t);
    if decide (Forall (λ r, length r ≤ length (header t)) (records t)) then
      Some (inr {| index := length (records t);
                   series :=
                     imap (λ j name,
                             (name, (λ r, parse_field (default "" (r !! j)))
                                      <$> records t))
                          names |})
    else Some (inl ParserError).

Definition row (df : DataFrame) (i : nat) : Series :=
  (λ c, (c.1, default NaN (c.2 !! i))) <$> series df.

(** [edf.iterrows()]: the index label and the row, in index order. *)
Definition iterrows (df : DataFrame) : list (nat * Series) :=
  (λ i, (i, row df i)) <$> seq 0 (index df).

(** [row.<name>]: the cell of the column of that name. *)
Fixpoint getattr (r : Series) (name : string) : exn + cell :=
  match r with
  | [] => inl (AttributeError name)
  | (n, c) :: r' => if decide (n = name) then inr c else getattr r' name
  end.

(** [str(c)], as an f-string formats a cell. *)
Definition str (c : cell) : string :=
  match c with
  | Str s => s
  | NaN => "nan"
  | Int64 z => str_int z
  end.

(** [DataFrame._ensure_valid_index]: a frame without rows takes the
    index of a non-empty value, its columns filled with missing values. *)
Definition ensure_valid_index (df : DataFrame) (n : nat) : DataFrame :=
  if decide (index df = 0 ∧ 0 < n) then
    {| index := n;
       series := (λ c, (c.1, replicate n NaN)) <$> series df |}
  else df.

(** [df[col] = value] for a one-dimensional integer array: after the
    index is made valid the lengths must agree; an existing column of
    that name is replaced, otherwise the column is appended. *)
Definition setitem (df : DataFrame) (col : string) (value : Np.ndarray)
  : exn + DataFrame :=
  let df := ensure_valid_index df (length value) in
  if decide (length value = index df) then
    let data := Int64 <$> value in
    inr {| index := index df;
           series :=
             if decide (col ∈ columns df) then
               (λ c, if decide (c.1 = col) then (c.1, data) else c) <$> series df
             else series df ++ [(col, data)] |}
  else inl (ValueError_length (length value) (index df)).

(** How [to_csv] writes a cell ([na_rep] is the empty string). *)
Definition render (c : cell) : string :=
  match c with
  | Str s => s
  | NaN => ""
  | Int64 z => str_int z
  end.

(** [df.to_csv(path, index=with_index)]: the header and one record per
    row. With the index, each record starts with the row label, under an
    empty name; without it, the fields are those of the columns only. *)
Definition to_csv (df : DataFrame) (with_index : bool) : CsvFile :=
  {| header := (if with_index then [""] else []) ++ columns df;
     records :=
       (λ i, (if with_index then [str_int (Z.of_nat i)] else [])
             ++ ((λ c, render (default NaN (c.2 !! i))) <$> series df))
         <$> seq 0 (index df) |}.

(** The fields of the column [name] of a file, top to bottom. *)
Definition field_position (t : CsvFile) (name : string) : option nat :=
  fst <$> list_find (λ n, n = name) (header t).

Definition csv_column (t : CsvFile) (name : string) : option (list string) :=
  j ← field_position t name;
  Some ((λ r, default "" (r !! j)) <$> records t).

End Pd.

(** ** The world and the interpreter state *)

(** What [input()] meets on standard input: a line, or an interrupt that
    arrives while the program waits. An exhausted stream is the end of
    the input. *)
Inductive response : Type :=
  | Typed (line : string)
  | Interrupt.

Inductive event : Type :=
  | Stdout (s : string)
  | FileWrite (path : string) (t : Pd.CsvFile).

Record World : Type := mkWorld {
  stdin : list response;
  fs : gmap string Pd.CsvFile;
  log : list event;            (* oldest first *)
}.

(** The script's two variables that change, and the world. *)
Record Machine : Type := mkMachine {
  edf : Pd.DataFrame;
  ans : Np.ndarray;
  world : World;
}.

Definition M (A : Type) : Type := Machine → (exn + A) * Machine.

Definition raise {A} (e : exn) : M A := λ m, (inl e, m).

Global Instance M_ret : MRet M := λ A a m, (inr a, m).
Global Instance M_bind : MBind M := λ A B k c m,
  match c m with
  | (inl e, m') => (inl e, m')
  | (inr a, m') => k a m'
  end.

Definition lift {A} (r : exn + A) : M A :=
  match r with inl e => raise e | inr a => mret a end.

Definition emit (e : event) : M unit :=
  λ m, (inr tt,
        {| edf := edf m; ans := ans m;
           world := {| stdin := stdin (world m); fs := fs (world m);
                       log := log (world m) ++ [e] |} |}).

(** [print(s)] *)
Definition print (s : string) : M unit := emit (Stdout (s +:+ nl)).

(** One line of standard input, as [input] reads it. *)
Definition readline : M string :=
  λ m, match stdin (world m) with
       | [] => (inl EOFError, m)
       | r :: rest =>
           let m' := {| edf := edf m; ans := ans m;
                        world := {| stdin := rest; fs := fs (world m);
                                    log := log (world m) |} |} in
           match r with
           | Typed line => (inr line, m')
           | Interrupt => (inl KeyboardInterrupt, m')
           end
       end.

(** [input(prompt)]: the prompt is written, then a line is read. *)
Definition input (prompt : string) : M string :=
  emit (Stdout prompt);; readline.

(** [for x in xs: body] *)
Fixpoint for_each {A} (xs : list A) (body : A → M unit) : M unit :=
  match xs with
  | [] => mret tt
  | x :: xs' => body x;; for_each xs' body
  end.

(** [try: body finally: handler]: the handler runs whether or not the
    body raised; an exception of the handler replaces the pending one,
    otherwise the pending one is raised again. *)
Definition try_finally (body handler : M unit) : M unit :=
  λ m, let (r, m1) := body m in
       let (r', m2) := handler m1 in
       match r' with
       | inl e' => (inl e', m2)
       | inr _ => (r, m2)
       end.

(** ** The script *)

Definition path : string := "experiment.csv".

Definition rule : string :=
  "----------------------------------------------------------------------------------".

(** The text printed before each prompt; [i] is the index label. *)
Definition info (i : nat) : string :=
  nl +:+ rule +:+ nl +:+ nl
  +:+ "TWEET #" +:+ str_int (Z.of_nat i + 1) +:+ nl +:+ nl
  +:+ "Possible responses:" +:+ nl +:+ nl
  +:+ "Unpolitical/Undecided (0)" +:+ nl
  +:+ "Positive to Democrats (1)" +:+ nl
  +:+ "Negative to Democrats (2)" +:+ nl
  +:+ "Negative to Conservatives (3)" +:+ nl
  +:+ "Positive to Conservatives (4)" +:+ nl.

Definition question (text : Pd.cell) : string :=
  "Tweet:" +:+ nl +:+ nl +:+ Pd.str text +:+ nl +:+ nl
  +:+ "Political Opinion (0-4): ".

(** [ans[i] = val] *)
Definition ans_setitem (i : nat) (val : string) : M unit :=
  λ m, match Np.setitem (ans m) i val with
       | inl e => (inl e, m)
       | inr a => (inr tt, {| edf := edf m; ans := a; world := world m |})
       end.

(** [edf[col] = ans] *)
Definition edf_setitem (col : string) : M unit :=
  λ m, match Pd.setitem (edf m) col (ans m) with
       | inl e => (inl e, m)
       | inr df => (inr tt, {| edf := df; ans := ans m; world := world m |})
       end.

(** [edf.to_csv(p, index=False)] *)
Definition edf_to_csv (p : string) : M unit :=
  λ m, let t := Pd.to_csv (edf m) false in
       (inr tt,
        {| edf := edf m; ans := ans m;
           world := {| stdin := stdin (world m);
                       fs := <[p := t]> (fs (world m));
                       log := log (world m) ++ [FileWrite p t] |} |}).

(** The body of the [for] loop, lines 10 to 22. *)
Definition body (i : nat) (row : Pd.Series) : M unit :=
  print (info i);;
  text ← lift (Pd.getattr row "text");
  val ← input (question text);
  ans_setitem i val.

(** The body on a pair [i, row] of the iteration. *)
Definition loop_body (r : nat * Pd.Series) : M unit := body r.1 r.2.

(** The [try] block: the loop over [edf.iterrows()]. *)
Definition annotate : M unit :=
  λ m, for_each (Pd.iterrows (edf m)) loop_body m.

(** [len(edf.columns)] *)
Definition len_edf_columns : M nat :=
  λ m, (inr (length (Pd.columns (edf m))), m).

Definition label_name (ncolumns : nat) : string :=
  "test" +:+ str_int (Z.of_nat ncolumns - 2).

(** The [finally] block, lines 24 to 26. *)
Definition finalize : M unit :=
  n ← len_edf_columns;
  edf_setitem (label_name n);;
  edf_to_csv path.

Definition script : M unit := try_finally annotate finalize.

(** The variables as lines 5 and 6 leave them: the frame that was read
    and a buffer of 1000 times -1. *)
Definition boot (df : Pd.DataFrame) (w : World) : Machine :=
  {| edf := df; ans := Np.full 1000 (-1); world := w |}.

(** Lines 6 to 26 on the frame that line 5 has read. *)
Definition run (df : Pd.DataFrame) (w : World) : (exn + unit) * World :=
  let (r, m) := script (boot df w) in (r, world m).

(** The whole program on a world: line 5 comes before the [try], so a
    failed load ends the run with nothing else done. The answer is [None]
    where the reading of the file is not embedded. *)
Definition main (w : World) : option ((exn + unit) * World) :=
  match fs w !! path with
  | None => Some (inl (FileNotFoundError path), w)
  | Some t =>
      match Pd.read_csv t with
      | None => None
      | Some (inl e) => Some (inl e, w)
      | Some (inr df) => Some (run df w)
      end
  end.

(** The file writes among the events of a log, oldest first. *)
Fixpoint writes (l : list event) : list (string * Pd.CsvFile) :=
  match l with
  | [] => []
  | Stdout _ :: l' => writes l'
  | FileWrite p t :: l' => (p, t) :: writes l'
  end.

(** The rows [i0], [i0 + 1], ... of the iteration, [n] of them. *)
Definition rows_from (df : Pd.DataFrame) (i0 n : nat) : list (nat * Pd.Series) :=
  (λ i, (i, Pd.row df i)) <$> seq i0 n.

(** What the loop leaves alone: the frame, the files, the size of the
    buffer and the file writes logged so far. *)
Definition untouched (m m' : Machine) : Prop :=
  edf m' = edf m ∧ fs (world m') = fs (world m)
  ∧ length (ans m') = length (ans m)
  ∧ writes (log (world m')) = writes (log (world m)).

(** A line of ASCII characters, and standard input that holds only such
    lines. *)
Definition ascii_only (line : string) : bool :=
  forallb (λ c, nat_of_ascii c <? 128) (list_ascii_of_string line).

Definition ascii_input (keys : list response) : Prop :=
  Forall (λ r, match r with
               | Typed line => ascii_only line = true
               | Interrupt => True
               end) keys.

(** An entry that the buffer accepts, and the integer it is stored as. *)
Definition coerces (val : string) (z : Z) : Prop := Np.coerce val = inr z.

(** How the next response ends the loop at row [i], if it does: the end
    of the input, an interrupt, an index past the buffer, or an entry that
    is no 64-bit integer. *)
Definition stops_with (i size : nat) (keys : list response) : option exn :=
  match keys with
  | [] => Some EOFError
  | Interrupt :: _ => Some KeyboardInterrupt
  | Typed val :: _ =>
      if decide (i < size) then
        match Np.coerce val with
        | inl e => Some e
        | inr _ => None
        end
      else Some (IndexError i size)
  end.

(** How the loop over [nrows] rows ends after [N] good entries, when the
    responses that follow are [rest]: it has passed every row, or the
    next response stops it. *)
Definition outcome_after (nrows N : nat) (rest : list response)
  : option (exn + unit) :=
  if decide (N = nrows) then Some (inr tt)
  else if decide (N < nrows) then inl <$> stops_with N 1000 rest
  else None.

(** The world in which the program is started again: the files and the
    log as the previous run left them, fresh responses on standard input. *)
Definition rerun (w : World) (keys : list response) : World :=
  {| stdin := keys; fs := fs w; log := log w |}.

(** The characters of a decimal numeral with an optional sign. *)
Definition numeral_char (c : ascii) : bool :=
  Ascii.eqb c "-"%char || bool_decide (is_Some (PyInt.digit_of c)).

Fixpoint numeral_chars (s : string) : bool :=
  match s with
  | EmptyString => true
  | String c s' => numeral_char c && numeral_chars s'
  end.

(** The first series of a frame that is named [name]: its position and
    its cells. *)
Definition first_named (df : Pd.DataFrame) (name : string) (j : nat)
    (data : list Pd.cell) : Prop :=
  Pd.series df !! j = Some (name, data)
  ∧ ∀ j' c, Pd.series df !! j' = Some c → j' < j → c.1 ≠ name.

(** ** Worlds and tables used as examples *)

(** A world whose only file is the dataset, with the operator's
    responses on standard input. *)
Definition start (t : Pd.CsvFile) (keys : list response) : World :=
  {| stdin := keys; fs := {[ path := t ]}; log := [] |}.

(** The frame [read_csv] makes of a table it accepts. *)
Definition frame_of (t : Pd.CsvFile) : Pd.DataFrame :=
  match Pd.read_csv t with
  | Some (inr df) => df
  | _ => {| Pd.index := 0; Pd.series := [] |}
  end.

(** [n] tweets under the columns [id] and [text]. *)
Definition tweets (n : nat) : Pd.CsvFile :=
  {| Pd.header := ["id"; "text"];
     Pd.records := (λ i, [pretty i; "tweet " +:+ pretty i]) <$> seq 1 n |}.

Definition abc : Pd.CsvFile :=
  {| Pd.header := ["id"; "text"];
     Pd.records := [["1"; "a"]; ["2"; "b"]; ["3"; "c"]] |}.

(** [n] rows of a file whose second column already bears the name that
    a run on two columns derives. *)
Definition relabelled (n : nat) : Pd.CsvFile :=
  {| Pd.header := ["text"; "test0"];
     Pd.records := replicate n ["tweet"; "4"] |}.

Definition header_only : Pd.CsvFile :=
  {| Pd.header := ["id"; "text"]; Pd.records := [] |}.

(** Unfolding one pass of the loop body, and the [finally] block. *)
Ltac run_body :=
  unfold loop_body, body, input, print, emit, readline, ans_setitem, lift,
    raise, mbind, mret, M_bind, M_ret; simpl.

Ltac run_finalize :=
  unfold finalize, len_edf_columns, edf_setitem, edf_to_csv,
    mbind, mret, M_bind, M_ret; simpl.

(** ** Notions for the properties of whole runs *)

(** The integers of the longest prefix of responses that are entries the
    buffer accepts. *)
Fixpoint entered (keys : list response) : list Z :=
  match keys with
  | Typed val :: rest =>
      match Np.coerce val with
      | inr z => z :: entered rest
      | inl _ => []
      end
  | _ => []
  end.

(** What is on the console for row [i]: the legend, and the question
    when the row has a [text] cell. *)
Definition shown (df : Pd.DataFrame) (i : nat) : list event :=
  Stdout (info i +:+ nl)
  :: match Pd.getattr (Pd.row df i) "text" with
     | inr c => [Stdout (question c)]
     | inl _ => []
     end.

(** The console events of the rows [0] to [k - 1], in order. *)
Definition transcript (df : Pd.DataFrame) (k : nat) : list event :=
  mjoin (shown df <$> seq 0 k).

(** A field of the file after it was read and written again. *)
Definition written_back (field : string) : string :=
  Pd.render (Pd.parse_field field).

Definition in_int64 (z : Z) : Prop :=
  (Np.int64_min ≤ z ≤ Np.int64_max)%Z.

Definition all_space (s : string) : bool :=
  forallb PyInt.is_space (list_ascii_of_string s).

(** [n] rows under the columns [id] and [tweet]: no column [text]. *)
Definition untitled (n : nat) : Pd.CsvFile :=
  {| Pd.header := ["id"; "tweet"];
     Pd.records := (λ i, [pretty i; "tweet " +:+ pretty i]) <$> seq 1 n |}.

(** [n] rows whose text is given, under the columns [id] and [text]. *)
Definition texts (fields : list string) : Pd.CsvFile :=
  {| Pd.header := ["id"; "text"];
     Pd.records := (λ f, ["7"; f]) <$> fields |}.

(** * The model on small inputs *)

Example int_plain : PyInt.int "3" = Some 3%Z.
Proof. reflexivity. Qed.

Example int_spaces_sign_underscore : PyInt.int "  -1_000 " = Some (-1000)%Z.
Proof. reflexivity. Qed.

Example int_rejects :
  PyInt.int "x" = None ∧ PyInt.int "" = None ∧ PyInt.int "1.5" = None
  ∧ PyInt.int "1__0" = None ∧ PyInt.int "- 1" = None.
Proof. by split_and!. Qed.

Example coerce_out_of_range :
  Np.coerce "9223372036854775807" = inr 9223372036854775807%Z
  ∧ Np.coerce "9223372036854775808" = inl (OverflowError 9223372036854775808).
Proof. by split_and!. Qed.

(** The separators 0x1c to 0x1f are not blanks for [int]. *)
Example int_separators :
  PyInt.int (String "031"%char "3") = None
  ∧ PyInt.int (String "011"%char "3") = Some 3%Z.
Proof. by split_and!. Qed.

(** A numeral of more than 4300 digits is refused by [int], before any
    range check. *)
Example coerce_digit_limit :
  let val := string_of_list_ascii (replicate 4301 "1"%char) in
  Np.coerce val = inl (ValueError_literal val).
Proof. by vm_compute. Qed.

Example setitem_past_the_end :
  Np.setitem [0; 0]%Z 2 "1" = inl (IndexError 2 2).
Proof. reflexivity. Qed.

Example label_names :
  label_name 2 = "test0" ∧ label_name 3 = "test1" ∧ label_name 1 = "test-1".
Proof. by split_and!. Qed.

(** A frame of three rows does not take the buffer; a frame without rows
    takes its index. *)
Example setitem_three_rows :
  Pd.setitem (frame_of abc) "test0" (Np.full 1000 (-1))
  = inl (ValueError_length 1000 3).
Proof. reflexivity. Qed.

Example setitem_no_rows :
  ∃ df, Pd.setitem (frame_of header_only) "test0" (Np.full 1000 (-1)) = inr df
        ∧ Pd.index df = 1000
        ∧ Pd.columns df = ["id"; "text"; "test0"].
Proof. eexists. split; [reflexivity|]. by vm_compute. Qed.

(** Repeated and empty names of the header line are renamed. *)
Example read_csv_renames :
  Pd.columns (frame_of {| Pd.header := ["text"; "text"; ""];
                          Pd.records := [["a"; "b"; "c"]] |})
  = ["text"; "text.1"; "Unnamed: 2"].
Proof. reflexivity. Qed.

(** The reading of a file whose first record is longer than the header
    is not embedded; a later record that is longer is an error. *)
Example read_csv_long_records :
  Pd.read_csv {| Pd.header := ["id"; "text"];
                 Pd.records := [["0"; "1"; "a"]; ["1"; "2"; "b"]] |} = None
  ∧ Pd.read_csv {| Pd.header := ["id"; "text"];
                   Pd.records := [["1"; "a"]; ["1"; "2"; "b"]] |}
    = Some (inl ParserError).
Proof. by split_and!. Qed.

(** * Properties of the loop *)

Lemma writes_app l1 l2 : writes (l1 ++ l2) = writes l1 ++ writes l2.
Proof.
  induction l1 as [|[s|p t] l1 IH]; simpl; [done|done|].
  by rewrite IH.
Qed.

Lemma untouched_refl m : untouched m m.
Proof. by repeat split. Qed.

Lemma untouched_trans m1 m2 m3 :
  untouched m1 m2 → untouched m2 m3 → untouched m1 m3.
Proof.
  intros (?&?&?&?) (?&?&?&?). repeat split; congruence.
Qed.

(** One pass through the body touches nothing but the console, the input
    stream and the entries of the buffer. *)
Lemma body_untouched i row m : untouched m (body i row m).2.
Proof.
  run_body. destruct (Pd.getattr row "text") as [e|text]; simpl.
  - repeat split; simpl; try done. by rewrite writes_app, app_nil_r.
  - destruct (stdin (world m)) as [|[line|] rest]; simpl.
    + repeat split; simpl; try done. by rewrite !writes_app, !app_nil_r.
    + unfold Np.setitem. destruct (decide _); simpl;
        [destruct (Np.coerce line); simpl|];
        repeat split; simpl; try done;
        rewrite ?writes_app, ?app_nil_r, ?length_insert; done.
    + repeat split; simpl; try done. by rewrite !writes_app, !app_nil_r.
Qed.

Lemma for_each_cons {A} (x : A) xs (f : A → M unit) m :
  for_each (x :: xs) f m =
  match f x m with
  | (inl e, m') => (inl e, m')
  | (inr _, m') => for_each xs f m'
  end.
Proof. reflexivity. Qed.

Lemma for_each_untouched rows m : untouched m (for_each rows loop_body m).2.
Proof.
  revert m. induction rows as [|[i row] rows IH]; intros m.
  - apply untouched_refl.
  - rewrite for_each_cons. unfold loop_body at 1. simpl.
    pose proof (body_untouched i row m) as Hb.
    destruct (body i row m) as [[e|[]] m1]; simpl in *; [done|].
    eapply untouched_trans; [exact Hb|apply IH].
Qed.

Lemma getattr_row df i name :
  name ∈ Pd.columns df → ∃ c, Pd.getattr (Pd.row df i) name = inr c.
Proof.
  unfold Pd.columns, Pd.row. induction (Pd.series df) as [|[n d] l IH]; simpl.
  - by intros ?%elem_of_nil.
  - intros [->|Hin]%elem_of_cons.
    + rewrite decide_True by done. eauto.
    + destruct (decide (n = name)); eauto.
Qed.

Lemma getattr_row_missing df i name :
  name ∉ Pd.columns df → 0 < length (Pd.series df) →
  Pd.getattr (Pd.row df i) name = inl (AttributeError name).
Proof.
  unfold Pd.columns, Pd.row. intros Hin _.
  induction (Pd.series df) as [|[n d] l IH]; simpl; [done|].
  rewrite fmap_cons in Hin. apply not_elem_of_cons in Hin as [? ?]. simpl in *.
  rewrite decide_False by done. by apply IH.
Qed.

(** A good entry at a row inside the buffer: stored, next line consumed. *)
Lemma body_store i row c m val rest z :
  Pd.getattr row "text" = inr c →
  stdin (world m) = Typed val :: rest →
  i < length (ans m) → coerces val z →
  ∃ m', body i row m = (inr tt, m')
        ∧ ans m' = <[i := z]> (ans m) ∧ stdin (world m') = rest
        ∧ log (world m') =
            log (world m) ++ [Stdout (info i +:+ nl); Stdout (question c)].
Proof.
  intros Hc Hin Hi Hz. run_body. rewrite Hc. simpl. rewrite Hin. simpl.
  unfold Np.setitem. rewrite decide_True by done. rewrite Hz. simpl.
  eexists. split; [done|]. simpl. by rewrite <-app_assoc.
Qed.

(** A response that stops the loop: the exception leaves the body and the
    buffer is as it was. *)
Lemma body_stop i row c m e :
  Pd.getattr row "text" = inr c →
  stops_with i (length (ans m)) (stdin (world m)) = Some e →
  ∃ m', body i row m = (inl e, m') ∧ ans m' = ans m
        ∧ stdin (world m') = tail (stdin (world m)).
Proof.
  intros Hc Hs. run_body. rewrite Hc. simpl.
  unfold stops_with in Hs. destruct (stdin (world m)) as [|[val|] rest]; simpl.
  - injection Hs as <-. eauto.
  - unfold Np.setitem. destruct (decide _).
    + destruct (Np.coerce val); [|done]. injection Hs as <-. simpl. eauto.
    + injection Hs as <-. simpl. eauto.
  - injection Hs as <-. eauto.
Qed.

Lemma rows_from_S df i0 n :
  rows_from df i0 (S n) = (i0, Pd.row df i0) :: rows_from df (S i0) n.
Proof. reflexivity. Qed.

(** The loop over a prefix of good entries. *)
Lemma loop_prefix df (Htext : "text" ∈ Pd.columns df) ss zs :
  Forall2 coerces ss zs →
  ∀ rest n i0 m,
    stdin (world m) = (Typed <$> ss) ++ rest →
    i0 + length ss ≤ length (ans m) →
    ∃ m', for_each (rows_from df i0 (length ss + n)) loop_body m
          = for_each (rows_from df (i0 + length ss) n) loop_body m'
          ∧ ans m' = list_inserts i0 zs (ans m)
          ∧ stdin (world m') = rest
          ∧ untouched m m'.
Proof.
  induction 1 as [|s z ss zs Hz _ IH]; intros rest n i0 m Hin Hlen;
    cbn [length Nat.add fmap list_fmap app] in *.
  - exists m. rewrite Nat.add_0_r. auto using untouched_refl.
  - destruct (getattr_row df i0 "text" Htext) as [c Hc].
    destruct (body_store i0 _ c m s _ z Hc Hin ltac:(lia) Hz)
      as (m1 & Hb & Hans & Hrest & _).
    pose proof (body_untouched i0 (Pd.row df i0) m) as Hf1. rewrite Hb in Hf1.
    simpl in Hf1.
    destruct (IH rest n (S i0) m1 Hrest) as (m' & Hrun & Hans' & Hrest' & Hf).
    { destruct Hf1 as (_&_&->&_). lia. }
    exists m'. rewrite rows_from_S, for_each_cons. unfold loop_body at 1.
    simpl. rewrite Hb, Hrun. replace (i0 + S (length ss)) with (S i0 + length ss) by lia.
    split; [done|]. split; [|split; [done|by eapply untouched_trans]].
    rewrite Hans', Hans. symmetry. apply list_insert_inserts_lt. lia.
Qed.

(** More rows than the buffer has entries: the loop cannot complete. *)
Lemma loop_overrun df n : ∀ i0 m,
  i0 ≤ length (ans m) → length (ans m) < i0 + n →
  (for_each (rows_from df i0 n) loop_body m).1 ≠ inr tt.
Proof.
  induction n as [|n IH]; intros i0 m Hle Hlt; [lia|].
  rewrite rows_from_S, for_each_cons. unfold loop_body at 1. simpl.
  pose proof (body_untouched i0 (Pd.row df i0) m) as (_&_&Hlen&_).
  destruct (body i0 (Pd.row df i0) m) as [[e|[]] m1] eqn:Hb; simpl in *; [done|].
  apply IH; [|lia].
  revert Hb. run_body. destruct (Pd.getattr _ _); simpl; [done|].
  destruct (stdin (world m)) as [|[val|] rest]; simpl; [done| |done].
  unfold Np.setitem. destruct (decide (i0 < length (ans m))); [|done].
  intros _. lia.
Qed.

(** * Properties of the table operations *)

Lemma imap_same {A} (f : nat → A → A) (l : list A) :
  (∀ i x, l !! i = Some x → f i x = x) → imap f l = l.
Proof.
  intros Hf. apply list_eq. intros i. rewrite list_lookup_imap.
  destruct (l !! i) as [x|] eqn:Hx; [|done]. simpl. by rewrite (Hf i x).
Qed.

Lemma occurrences_0 n l : Pd.occurrences n l = 0 ↔ n ∉ l.
Proof.
  induction l as [|m l IH]; simpl.
  - split; [intros _; apply not_elem_of_nil|done].
  - rewrite not_elem_of_cons. destruct (decide (m = n)) as [->|Hne]; simpl.
    + split; [lia|]. by intros [? _].
    + rewrite IH. split; [done|by intros [_ ?]].
Qed.

Lemma parsed_names_inv h names :
  Pd.parsed_names h = Some names →
  names = Pd.mangle (imap Pd.unnamed h)
  ∧ Pd.renamed_apart h (imap Pd.unnamed h)
  ∧ Pd.renamed_apart (imap Pd.unnamed h) names
  ∧ NoDup names ∧ length names = length h.
Proof.
  unfold Pd.parsed_names. destruct (decide _) as [(H1 & H2 & H3)|]; [|done].
  intros [= <-]. split_and!; try done.
  unfold Pd.mangle. by rewrite !length_imap.
Qed.

Lemma renamed_apart_lookup before after j x y :
  Pd.renamed_apart before after →
  before !! j = Some x → after !! j = Some y → x = y ∨ y ∉ before.
Proof.
  intros H Hx Hy.
  apply (proj1 (Forall_lookup _ _) H j (x, y)).
  by rewrite lookup_zip_with, Hx, Hy.
Qed.

Lemma mangle_lookup given j g :
  given !! j = Some g →
  Pd.mangle given !! j
  = Some (if decide (Pd.occurrences g (take j given) = 0) then g
          else g +:+ "." +:+ pretty (Pd.occurrences g (take j given))).
Proof. intros Hg. unfold Pd.mangle. by rewrite list_lookup_imap, Hg. Qed.

(** A name of the header that is not empty names the column at its first
    position, and no column before it. *)
Lemma parsed_names_first h names j n :
  Pd.parsed_names h = Some names →
  h !! j = Some n → n ≠ "" →
  (∀ j' y, h !! j' = Some y → j' < j → y ≠ n) →
  names !! j = Some n
  ∧ ∀ j' y, names !! j' = Some y → j' < j → y ≠ n.
Proof.
  intros (-> & H1 & H2 & _ & _)%parsed_names_inv Hj Hn Hfirst.
  set (given := imap Pd.unnamed h) in *.
  assert (given !! j = Some n) as Hgj.
  { unfold given. rewrite list_lookup_imap, Hj. simpl.
    unfold Pd.unnamed. by rewrite decide_False. }
  assert (∀ j' g, given !! j' = Some g → j' < j → g ≠ n) as Hgiven.
  { intros j' g Hg Hlt ->.
    assert (is_Some (h !! j')) as [y Hy].
    { apply lookup_lt_is_Some. apply lookup_lt_Some in Hg.
      unfold given in Hg. by rewrite length_imap in Hg. }
    destruct (renamed_apart_lookup _ _ _ _ _ H1 Hy Hg) as [->|Hnot].
    - by apply (Hfirst j' n).
    - apply Hnot. by eapply list_elem_of_lookup_2. }
  split.
  - rewrite (mangle_lookup _ _ _ Hgj). rewrite decide_True; [done|].
    apply occurrences_0. intros (j' & Hj')%list_elem_of_lookup_1.
    apply lookup_take_Some in Hj' as [Hj' Hlt]. by apply (Hgiven j' n).
  - intros j' y Hy Hlt ->.
    assert (is_Some (given !! j')) as [g Hg].
    { apply lookup_lt_is_Some. apply lookup_lt_Some in Hy.
      unfold Pd.mangle in Hy. by rewrite length_imap in Hy. }
    destruct (renamed_apart_lookup _ _ _ _ _ H2 Hg Hy) as [->|Hnot].
    + by apply (Hgiven j' n).
    + apply Hnot. by eapply list_elem_of_lookup_2.
Qed.

Lemma in_parsed_names h names n :
  Pd.parsed_names h = Some names → n ∈ h → n ≠ "" → n ∈ names.
Proof.
  intros Hp Hin Hn.
  destruct (list_find (λ y, y = n) h) as [[j y]|] eqn:Hf.
  - apply list_find_Some in Hf as (Hj & -> & Hleast).
    destruct (parsed_names_first h names j n Hp Hj Hn) as [Hj' _].
    + intros j' y Hy Hlt. by apply (Hleast j' y).
    + by eapply list_elem_of_lookup_2.
  - apply list_find_None in Hf.
    by destruct (proj1 (Forall_forall _ _) Hf n Hin).
Qed.

(** Names that are distinct and not empty are the column names. *)
Lemma parsed_names_plain h :
  NoDup h → "" ∉ h → Pd.parsed_names h = Some h.
Proof.
  intros Hnd Hne.
  assert (imap Pd.unnamed h = h) as Hgiven.
  { apply imap_same. intros i x Hx. unfold Pd.unnamed.
    rewrite decide_False; [done|]. intros ->. apply Hne.
    by eapply list_elem_of_lookup_2. }
  assert (Pd.mangle h = h) as Hm.
  { apply imap_same. intros i x Hx.
    rewrite decide_True; [done|]. apply occurrences_0.
    intros (j & Hj)%list_elem_of_lookup_1.
    apply lookup_take_Some in Hj as [Hj Hlt].
    pose proof (NoDup_lookup _ _ _ _ Hnd Hx Hj). lia. }
  assert (Pd.renamed_apart h h) as Hsame.
  { unfold Pd.renamed_apart. generalize h at 1. clear.
    intros before. induction h as [|x h IH]; simpl; constructor; auto. }
  unfold Pd.parsed_names. rewrite Hgiven, Hm. by rewrite decide_True.
Qed.

Lemma read_csv_inv t df :
  Pd.read_csv t = Some (inr df) →
  Pd.header t ≠ [] ∧ Pd.index df = length (Pd.records t)
  ∧ Pd.parsed_names (Pd.header t) = Some (Pd.columns df)
  ∧ length (Pd.columns df) = length (Pd.header t).
Proof.
  unfold Pd.read_csv. destruct (decide (Pd.header t = [])).
  { by destruct (decide _). }
  destruct (decide (_ ∨ _)); [done|].
  destruct (Pd.parsed_names (Pd.header t)) as [names|] eqn:Hp; [|done].
  simpl. destruct (decide _); [|done]. intros [= <-].
  assert (Pd.columns
            {| Pd.index := length (Pd.records t);
               Pd.series :=
                 imap (λ j name,
                         (name, (λ r, Pd.parse_field (default "" (r !! j)))
                                  <$> Pd.records t)) names |} = names) as Hc.
  { unfold Pd.columns. simpl. rewrite fmap_imap.
    apply list_eq. intros j. rewrite list_lookup_imap.
    by destruct (names !! j). }
  rewrite Hc. split_and!; try done.
  by destruct (parsed_names_inv _ _ Hp) as (_ & _ & _ & _ & ?).
Qed.

Lemma fmap_fst_keep {A B} (f : A * B → A * B) (l : list (A * B)) :
  (∀ c, (f c).1 = c.1) → (f <$> l).*1 = l.*1.
Proof.
  intros Hf. induction l as [|c l IH]; [done|].
  rewrite !fmap_cons. by rewrite Hf, IH.
Qed.

Lemma columns_ensure_valid_index df n :
  Pd.columns (Pd.ensure_valid_index df n) = Pd.columns df.
Proof.
  unfold Pd.ensure_valid_index, Pd.columns. destruct (decide _); [|done].
  simpl. by apply fmap_fst_keep.
Qed.

(** When the attach fails: rows exist and their number is not the
    buffer's length. *)
Lemma setitem_fail df col (a : list Z) :
  Pd.index df ≠ 0 → Pd.index df ≠ length a →
  Pd.setitem df col a = inl (ValueError_length (length a) (Pd.index df)).
Proof.
  intros H0 Hne. unfold Pd.setitem, Pd.ensure_valid_index.
  rewrite (decide_False (P := _ ∧ _)) by (intros [? _]; done).
  by rewrite decide_False.
Qed.

Lemma setitem_inv df col (a : list Z) df' :
  Pd.setitem df col a = inr df' →
  Pd.index df' = length a
  ∧ Pd.columns df' =
      (if decide (col ∈ Pd.columns df) then Pd.columns df
       else Pd.columns df ++ [col])
  ∧ (Pd.index df = length a ∨ Pd.index df = 0).
Proof.
  unfold Pd.setitem. destruct (decide (length a = _)) as [Hlen|]; [|done].
  intros [= <-]. split; [done|]. split.
  - rewrite <-(columns_ensure_valid_index df (length a)).
    set (df0 := Pd.ensure_valid_index df (length a)).
    unfold Pd.columns at 1. cbn [Pd.series].
    destruct (decide (col ∈ Pd.columns df0)).
    + apply fmap_fst_keep. intros [n d]; simpl. by destruct (decide _).
    + by rewrite fmap_app.
  - revert Hlen. unfold Pd.ensure_valid_index. destruct (decide _) as [[? ?]|];
      simpl; auto.
Qed.

Lemma setitem_ok df col (a : list Z) :
  Pd.index df = length a ∨ Pd.index df = 0 →
  ∃ df', Pd.setitem df col a = inr df'.
Proof.
  intros H. unfold Pd.setitem, Pd.ensure_valid_index.
  destruct (decide (Pd.index df = 0 ∧ 0 < length a)) as [[? ?]|Hn]; simpl.
  - rewrite decide_True by done. eauto.
  - rewrite decide_True by (destruct H; lia). eauto.
Qed.

(** The fields of a column of the written file are the rendered cells of
    the first series of that name. *)
Lemma csv_column_to_csv df name j data :
  Pd.series df !! j = Some (name, data) →
  (∀ j' c, Pd.series df !! j' = Some c → j' < j → c.1 ≠ name) →
  length data = Pd.index df →
  Pd.csv_column (Pd.to_csv df false) name = Some (Pd.render <$> data).
Proof.
  intros Hj Hfirst Hlen. unfold Pd.csv_column, Pd.field_position.
  assert (list_find (λ n, n = name) (Pd.header (Pd.to_csv df false)) = Some (j, name))
    as ->.
  { apply list_find_Some. simpl. unfold Pd.columns. split_and!; [|done|].
    - by rewrite list_lookup_fmap, Hj.
    - intros j' y Hy Hlt. rewrite list_lookup_fmap in Hy.
      destruct (Pd.series df !! j') as [c|] eqn:Hc; [|done].
      injection Hy as <-. by eapply Hfirst. }
  simpl. f_equal. apply list_eq. intros i.
  rewrite !list_lookup_fmap.
  destruct (decide (i < Pd.index df)) as [Hi|Hi].
  - rewrite (proj2 (lookup_seq 0 (Pd.index df) i i)) by done. simpl.
    rewrite list_lookup_fmap, Hj. simpl.
    destruct (lookup_lt_is_Some_2 data i ltac:(lia)) as [x ->]. done.
  - rewrite (lookup_ge_None_2 (seq _ _)) by (rewrite length_seq; lia).
    by rewrite (lookup_ge_None_2 data) by lia.
Qed.

(** The column that [df[col] = a] sets is written as the decimal text of
    the buffer's integers. *)
Lemma setitem_column df col (a : list Z) df' :
  Pd.setitem df col a = inr df' →
  Pd.csv_column (Pd.to_csv df' false) col = Some (str_int <$> a).
Proof.
  unfold Pd.setitem. destruct (decide (length a = _)) as [Hlen|]; [|done].
  intros [= <-]. set (df0 := Pd.ensure_valid_index df (length a)) in *.
  assert (Pd.render <$> (Pd.Int64 <$> a) = str_int <$> a) as <-.
  { by rewrite <-list_fmap_compose. }
  destruct (decide (col ∈ Pd.columns df0)) as [Hin|Hnin].
  - unfold Pd.columns in Hin.
    destruct (list_find (λ c, c.1 = col) (Pd.series df0)) as [[j c]|] eqn:Hf.
    + apply list_find_Some in Hf as (Hj & Hc & Hleast).
      apply csv_column_to_csv with (j := j); simpl.
      * rewrite list_lookup_fmap, Hj. simpl. by rewrite decide_True, Hc.
      * intros j' c' Hc' Hlt. rewrite list_lookup_fmap in Hc'.
        destruct (Pd.series df0 !! j') as [c0|] eqn:H0; [|done].
        injection Hc' as <-. pose proof (Hleast _ _ H0 Hlt).
        by rewrite decide_False.
      * by rewrite length_fmap.
    + apply list_find_None in Hf. apply list_elem_of_fmap in Hin as (c & -> & Hc).
      by destruct (proj1 (Forall_forall _ _) Hf c Hc).
  - apply csv_column_to_csv with (j := length (Pd.series df0)); simpl.
    + by rewrite lookup_app_r, Nat.sub_diag.
    + intros j' c Hc Hlt. rewrite lookup_app_l in Hc by done.
      intros <-. apply Hnin. unfold Pd.columns.
      apply list_elem_of_fmap. exists c. split; [done|].
      by eapply list_elem_of_lookup_2.
    + by rewrite length_fmap.
Qed.

(** The written file has one record per row and one field per column. *)
Lemma to_csv_shape df :
  length (Pd.records (Pd.to_csv df false)) = Pd.index df
  ∧ Forall (λ r, length r = length (Pd.header (Pd.to_csv df false)))
           (Pd.records (Pd.to_csv df false)).
Proof.
  simpl. split.
  - by rewrite length_fmap, length_seq.
  - apply Forall_fmap, Forall_forall. intros i _. simpl.
    unfold Pd.columns. by rewrite !length_fmap.
Qed.

(** * Numerals, names and entries *)

Lemma str_int_minus_one : str_int (-1) = "-1".
Proof. reflexivity. Qed.

Lemma start_lookup t keys : fs (start t keys) !! path = Some t.
Proof. apply lookup_singleton_eq. Qed.

Lemma pretty_N_char_numeral x : numeral_char (pretty_N_char x) = true.
Proof. unfold pretty_N_char. by repeat case_match. Qed.

Lemma pretty_N_go_numeral x s :
  numeral_chars s = true → s ≠ "" →
  numeral_chars (pretty_N_go x s) = true ∧ pretty_N_go x s ≠ "".
Proof.
  revert s. induction (N.lt_wf_0 x) as [x _ IH]; intros s Hs Hne.
  assert (x = 0 ∨ 0 < x)%N as [->|Hx] by lia.
  - by rewrite pretty_N_go_0.
  - rewrite pretty_N_go_step by done. apply IH.
    + by apply N.div_lt.
    + simpl. by rewrite pretty_N_char_numeral.
    + done.
Qed.

Lemma pretty_N_numeral (x : N) :
  numeral_chars (pretty x) = true ∧ pretty x ≠ "".
Proof.
  unfold pretty, pretty_N. destruct (decide (x = 0%N)) as [->|Hx]; [done|].
  rewrite pretty_N_go_step by lia. apply pretty_N_go_numeral; [|done].
  simpl. by rewrite pretty_N_char_numeral.
Qed.

Lemma str_int_numeral z : numeral_chars (str_int z) = true ∧ str_int z ≠ "".
Proof.
  unfold str_int, pretty, pretty_Z. destruct z as [|p|p]; [done| |].
  - apply (pretty_N_numeral (Npos p)).
  - split; [|done]. simpl. apply (pretty_N_numeral (Npos p)).
Qed.

(** A decimal numeral is not one of the texts read as missing. *)
Lemma parse_field_str_int z : Pd.parse_field (str_int z) = Pd.Str (str_int z).
Proof.
  destruct (str_int_numeral z) as [Hn Hne]. unfold Pd.parse_field.
  destruct (decide (str_int z ∈ Pd.na_values)) as [Hin|]; [|done].
  exfalso. apply list_elem_of_In in Hin. simpl in Hin.
  repeat (destruct Hin as [Hin|Hin];
          [rewrite <-Hin in Hn, Hne; first [done | discriminate Hn]|]).
  done.
Qed.

Lemma render_parse_str_int (a : list Z) :
  Pd.render <$> (Pd.parse_field <$> (str_int <$> a)) = str_int <$> a.
Proof.
  induction a as [|z a IH]; [done|].
  rewrite !fmap_cons, IH, parse_field_str_int. done.
Qed.

Lemma append_inj_r (p a b : string) : p +:+ a = p +:+ b → a = b.
Proof. induction p as [|c p IH]; simpl; [done|]. intros [= H]. by apply IH. Qed.

Lemma label_name_inj k k' : label_name k = label_name k' → k = k'.
Proof.
  unfold label_name, str_int. intros H%append_inj_r.
  apply (inj pretty) in H. lia.
Qed.

Lemma chars_append a b :
  list_ascii_of_string (a +:+ b)
  = list_ascii_of_string a ++ list_ascii_of_string b.
Proof. induction a as [|c a IH]; simpl; [done|]. by rewrite IH. Qed.

Lemma numeral_no_dot s :
  numeral_chars s = true → "."%char ∉ list_ascii_of_string s.
Proof.
  induction s as [|c s IH]; simpl; [intros _; apply not_elem_of_nil|].
  intros [Hc Hs]%andb_true_iff. apply not_elem_of_cons. split; [|auto].
  intros <-. discriminate Hc.
Qed.

Lemma dotted_has_dot n k : "."%char ∈ list_ascii_of_string (n +:+ "." +:+ k).
Proof.
  rewrite chars_append. apply elem_of_app. right. simpl. apply elem_of_cons.
  by left.
Qed.

(** Where the name of a column comes from: the header, or the renaming. *)
Lemma parsed_names_origin h names y :
  Pd.parsed_names h = Some names → y ∈ names →
  (y ∈ h ∧ y ≠ "") ∨ (∃ i : nat, y = "Unnamed: " +:+ pretty i)
  ∨ (∃ n k, y = n +:+ "." +:+ k).
Proof.
  intros (-> & _ & _ & _ & _)%parsed_names_inv (j & Hj)%list_elem_of_lookup_1.
  assert (is_Some (imap Pd.unnamed h !! j)) as [g Hg].
  { apply lookup_lt_is_Some. apply lookup_lt_Some in Hj.
    unfold Pd.mangle in Hj. by rewrite length_imap in Hj. }
  rewrite (mangle_lookup _ _ _ Hg) in Hj. injection Hj as <-.
  destruct (decide _); [|right; right; eauto].
  rewrite list_lookup_imap in Hg.
  destruct (h !! j) as [x|] eqn:Hx; [|done]. injection Hg as <-.
  unfold Pd.unnamed. destruct (decide (x = "")) as [->|Hne].
  - right. left. eauto.
  - left. split; [by eapply list_elem_of_lookup_2|done].
Qed.

Lemma parsed_names_nonempty h names :
  Pd.parsed_names h = Some names → "" ∉ names.
Proof.
  intros Hp Hin.
  destruct (parsed_names_origin _ _ _ Hp Hin) as [[_ ?]|[[i Hi]|(n & k & Hnk)]].
  - done.
  - discriminate Hi.
  - pose proof (dotted_has_dot n k) as Hd. rewrite <-Hnk in Hd.
    by apply elem_of_nil in Hd.
Qed.

(** A name without a dot that does not start like a made-up name is a
    column only if the header has it. *)
Lemma not_in_parsed_names h names y :
  Pd.parsed_names h = Some names →
  y ∉ h → "."%char ∉ list_ascii_of_string y →
  (∀ i : nat, y ≠ "Unnamed: " +:+ pretty i) →
  y ∉ names.
Proof.
  intros Hp Hh Hdot Hun Hin.
  destruct (parsed_names_origin _ _ _ Hp Hin) as [[? _]|[[i Hi]|(n & k & ->)]].
  - done.
  - by apply (Hun i).
  - apply Hdot, dotted_has_dot.
Qed.

Lemma text_not_made_up h names :
  Pd.parsed_names h = Some names → "text" ∉ h → "text" ∉ names.
Proof.
  intros Hp Hh. apply (not_in_parsed_names h names "text" Hp Hh).
  - intros H%list_elem_of_In. simpl in H.
    repeat (destruct H as [H|H]; [discriminate H|]). done.
  - intros i Hi. discriminate Hi.
Qed.

Lemma label_name_not_made_up h names k :
  Pd.parsed_names h = Some names → label_name k ∉ h → label_name k ∉ names.
Proof.
  intros Hp Hh. apply (not_in_parsed_names h names _ Hp Hh).
  - unfold label_name. rewrite chars_append. intros [H|H]%elem_of_app.
    + apply list_elem_of_In in H. simpl in H.
      repeat (destruct H as [H|H]; [discriminate H|]). done.
    + by apply (numeral_no_dot _ (proj1 (str_int_numeral (Z.of_nat k - 2)))).
  - intros i Hi. discriminate Hi.
Qed.

Lemma label_name_nonempty k : label_name k ≠ "".
Proof. discriminate. Qed.

Lemma csv_column_inv t name fields :
  Pd.csv_column t name = Some fields →
  ∃ j, Pd.header t !! j = Some name
       ∧ (∀ j' y, Pd.header t !! j' = Some y → j' < j → y ≠ name)
       ∧ fields = (λ r, default "" (r !! j)) <$> Pd.records t.
Proof.
  unfold Pd.csv_column, Pd.field_position.
  destruct (list_find _ _) as [[j y]|] eqn:Hf; [|done]. simpl. intros [= <-].
  apply list_find_Some in Hf as (Hj & -> & Hleast). eauto.
Qed.

Lemma read_csv_series t df :
  Pd.read_csv t = Some (inr df) →
  Pd.series df
  = imap (λ j name, (name, (λ r, Pd.parse_field (default "" (r !! j)))
                             <$> Pd.records t))
         (Pd.columns df).
Proof.
  unfold Pd.read_csv.
  destruct (decide (Pd.header t = [])); [by destruct (decide _)|].
  destruct (decide (_ ∨ _)); [done|].
  destruct (Pd.parsed_names (Pd.header t)) as [names|]; [|done]. simpl.
  destruct (decide _); [|done]. intros [= <-].
  unfold Pd.columns. cbn [Pd.series]. f_equal.
  rewrite fmap_imap. symmetry. apply imap_same. done.
Qed.

(** The frame read from a file holds a column of the file that has a
    name as its first series of that name. *)
Lemma read_csv_first_named t df name fields :
  Pd.read_csv t = Some (inr df) → Pd.csv_column t name = Some fields →
  name ≠ "" →
  ∃ j, first_named df name j (Pd.parse_field <$> fields).
Proof.
  intros Hread (j & Hj & Hleast & ->)%csv_column_inv Hname. exists j.
  destruct (read_csv_inv _ _ Hread) as (_ & _ & Hnames & _).
  destruct (parsed_names_first _ _ j name Hnames Hj Hname Hleast)
    as [Hcj Hcfirst].
  unfold first_named. rewrite (read_csv_series _ _ Hread). split.
  - rewrite list_lookup_imap, Hcj. simpl. by rewrite <-list_fmap_compose.
  - intros j' c Hc Hlt. rewrite list_lookup_imap in Hc.
    destruct (Pd.columns df !! j') as [y|] eqn:Hy; [|done].
    injection Hc as <-. simpl. by apply (Hcfirst j' y).
Qed.

(** Attaching a column leaves the other columns of a frame with rows of
    the same number in place. *)
Lemma setitem_first_named_other df col (a : list Z) df' name j data :
  Pd.setitem df col a = inr df' → Pd.index df = length a → name ≠ col →
  first_named df name j data → first_named df' name j data.
Proof.
  intros Hset Hidx Hne [Hj Hleast]. revert Hset.
  unfold Pd.setitem, Pd.ensure_valid_index.
  rewrite (decide_False (P := _ ∧ _)) by lia.
  rewrite decide_True by done. intros [= <-]. unfold first_named. simpl.
  destruct (decide (col ∈ Pd.columns df)).
  - split.
    + rewrite list_lookup_fmap, Hj. simpl. by rewrite decide_False.
    + intros j' c Hc Hlt. rewrite list_lookup_fmap in Hc.
      destruct (Pd.series df !! j') as [c0|] eqn:H0; [|done].
      injection Hc as <-. pose proof (Hleast _ _ H0 Hlt).
      by destruct (decide (c0.1 = col)).
  - pose proof (lookup_lt_Some _ _ _ Hj). split.
    + by rewrite lookup_app_l.
    + intros j' c Hc Hlt. rewrite lookup_app_l in Hc by lia. by eapply Hleast.
Qed.

Lemma getattr_first_named df name j data i :
  first_named df name j data →
  Pd.getattr (Pd.row df i) name = inr (default Pd.NaN (data !! i)).
Proof.
  unfold first_named, Pd.row. revert j.
  induction (Pd.series df) as [|[n d] l IH]; intros j [Hj Hleast].
  - by rewrite lookup_nil in Hj.
  - rewrite fmap_cons. cbn [Pd.getattr fst snd]. destruct j as [|j].
    + injection Hj as -> ->. by rewrite decide_True.
    + rewrite decide_False.
      * apply (IH j). split; [done|]. intros j' c Hc Hlt.
        apply (Hleast (S j') c); [done|lia].
      * apply (Hleast 0 (n, d)); [done|lia].
Qed.

(** A file that the script has written is read back with the names and
    the number of rows of the frame it was written from. *)
Lemma read_csv_written df :
  Pd.columns df ≠ [] → NoDup (Pd.columns df) → "" ∉ Pd.columns df →
  ∃ df2, Pd.read_csv (Pd.to_csv df false) = Some (inr df2).
Proof.
  intros Hne Hnd Hempty.
  destruct (to_csv_shape df) as [_ Hshape].
  unfold Pd.read_csv.
  change (Pd.header (Pd.to_csv df false)) with (Pd.columns df) in *.
  rewrite decide_False by done.
  rewrite (decide_False (P := _ ∨ _)).
  - rewrite (parsed_names_plain _ Hnd Hempty). simpl.
    rewrite decide_True; [eauto|].
    eapply Forall_impl; [exact Hshape|]. simpl. intros r ->. done.
  - intros [Hin|Hlab].
    + pose proof (proj1 (Forall_forall _ _) Hshape [] Hin) as Hl. simpl in Hl.
      destruct (Pd.columns df); [done|discriminate Hl].
    + revert Hlab Hshape. unfold Pd.labelled_rows.
      change (Pd.header (Pd.to_csv df false)) with (Pd.columns df).
      destruct (Pd.records (Pd.to_csv df false)) as [|r rs]; [done|].
      intros Hlt Hs. pose proof (Forall_inv Hs) as Hr. simpl in Hr. lia.
Qed.

(** ** The conversion of entries *)

Lemma coerce_in_int64 val z : Np.coerce val = inr z → in_int64 z.
Proof.
  unfold Np.coerce, in_int64. destruct (PyInt.int val) as [z'|]; [|done].
  destruct (_ && _)%bool eqn:Hr; [|done]. intros [= <-].
  apply andb_true_iff in Hr as [?%Z.leb_le ?%Z.leb_le]. done.
Qed.

Lemma body_in_int64 i row m :
  Forall in_int64 (ans m) → Forall in_int64 (ans (body i row m).2).
Proof.
  intros Hm. run_body. destruct (Pd.getattr row "text"); simpl; [done|].
  destruct (stdin (world m)) as [|[val|] rest]; simpl; [done| |done].
  unfold Np.setitem. destruct (decide _); [|done].
  destruct (Np.coerce val) as [e|z] eqn:Hz; simpl; [done|].
  apply Forall_insert; [done|]. by eapply coerce_in_int64.
Qed.

Lemma for_each_in_int64 rows m :
  Forall in_int64 (ans m) →
  Forall in_int64 (ans (for_each rows loop_body m).2).
Proof.
  revert m. induction rows as [|[i row] rows IH]; intros m Hm; [done|].
  rewrite for_each_cons. unfold loop_body at 1. cbn [fst snd].
  pose proof (body_in_int64 i row m Hm) as Hb.
  destruct (body i row m) as [[e|[]] m1]; simpl in *; [done|]. by apply IH.
Qed.

Lemma lstrip_app_spaces ws l :
  forallb PyInt.is_space ws = true → PyInt.lstrip (ws ++ l) = PyInt.lstrip l.
Proof.
  induction ws as [|c ws IH]; simpl; [done|].
  intros [-> ?]%andb_true_iff. auto.
Qed.

Lemma lstrip_spaces ws :
  forallb PyInt.is_space ws = true → PyInt.lstrip ws = [].
Proof.
  intros H. rewrite <-(app_nil_r ws). by rewrite lstrip_app_spaces.
Qed.

Lemma lstrip_nil l : PyInt.lstrip l = [] → forallb PyInt.is_space l = true.
Proof.
  induction l as [|c l IH]; simpl; [done|].
  destruct (PyInt.is_space c); [done|discriminate].
Qed.

Lemma lstrip_app l k :
  PyInt.lstrip l ≠ [] → PyInt.lstrip (l ++ k) = PyInt.lstrip l ++ k.
Proof.
  induction l as [|c l IH]; simpl; [done|].
  destruct (PyInt.is_space c); auto.
Qed.

Lemma forallb_rev {A} (f : A → bool) l :
  forallb f l = true → forallb f (rev l) = true.
Proof.
  induction l as [|a l IH]; simpl; [done|].
  intros [Ha Hl]%andb_true_iff. rewrite forallb_app. simpl.
  by rewrite IH, Ha.
Qed.

Lemma strip_spaces ws1 l ws2 :
  forallb PyInt.is_space ws1 = true → forallb PyInt.is_space ws2 = true →
  PyInt.strip (ws1 ++ l ++ ws2) = PyInt.strip l.
Proof.
  intros H1 H2. unfold PyInt.strip. rewrite lstrip_app_spaces by done.
  destruct (PyInt.lstrip l) as [|c l'] eqn:Hl.
  - rewrite lstrip_app_spaces by by apply lstrip_nil.
    by rewrite (lstrip_spaces ws2) by done.
  - rewrite lstrip_app by (by rewrite Hl). rewrite Hl.
    rewrite rev_app_distr. by rewrite lstrip_app_spaces by by apply forallb_rev.
Qed.

Lemma digit_of_pretty_char x :
  (x < 10)%N → PyInt.digit_of (pretty_N_char x) = Some (Z.of_N x).
Proof.
  intros Hx. destruct x as [|p]; [reflexivity|].
  do 4 (try (destruct p as [p|p|]; try reflexivity; try lia)).
Qed.

Lemma digitpart_pretty_go x : ∀ s, ∃ k : Z, ∀ acc b,
  PyInt.digitpart (list_ascii_of_string (pretty_N_go x s)) acc b
  = PyInt.digitpart (list_ascii_of_string s)
      (acc * 10 ^ k + Z.of_N x)%Z (b || (0 <? x)%N) ∧ (0 ≤ k)%Z.
Proof.
  induction (N.lt_wf_0 x) as [x _ IH]; intros s.
  assert (x = 0 ∨ 0 < x)%N as [->|Hx] by lia.
  - exists 0%Z. intros acc b. rewrite pretty_N_go_0. simpl.
    rewrite orb_false_r. split; [|lia]. f_equal. lia.
  - rewrite pretty_N_go_step by done.
    destruct (IH (x `div` 10)%N (N.div_lt x 10 Hx eq_refl)
                (String (pretty_N_char (x `mod` 10)) s)) as (k & Hk).
    exists (k + 1)%Z. intros acc b. destruct (Hk acc b) as [-> Hk0].
    split; [|lia]. cbn [list_ascii_of_string PyInt.digitpart].
    rewrite digit_of_pretty_char by (by apply N.mod_lt).
    rewrite (proj2 (N.ltb_lt 0 x)) by done. rewrite orb_true_r.
    f_equal. rewrite Z.pow_add_r by lia.
    assert (Z.of_N x = 10 * Z.of_N (x `div` 10) + Z.of_N (x `mod` 10))%Z as ->.
    { rewrite (N.div_mod x 10) at 1 by done. lia. }
    lia.
Qed.

Lemma digitpart_pretty_N (x : N) :
  PyInt.digitpart (list_ascii_of_string (pretty x)) 0 false = Some (Z.of_N x).
Proof.
  unfold pretty, pretty_N. destruct (decide (x = 0%N)) as [->|Hx]; [done|].
  destruct (digitpart_pretty_go x "") as (k & Hk).
  destruct (Hk 0%Z false) as [-> _]. simpl.
  rewrite (proj2 (N.ltb_lt 0 x)) by lia. done.
Qed.

Lemma literal_digits l v :
  PyInt.digitpart l 0 false = Some v → PyInt.literal l = Some v.
Proof.
  destruct l as [|c l]; [done|]. intros H. unfold PyInt.literal.
  revert H. simpl. destruct (PyInt.digit_of c) as [d|] eqn:Hd.
  - destruct (Ascii.eqb_spec c "-") as [->|_]; [done|].
    destruct (Ascii.eqb_spec c "+") as [->|_]; [done|]. done.
  - by rewrite andb_false_r.
Qed.

Lemma numeral_not_space c : numeral_char c = true → PyInt.is_space c = false.
Proof. destruct c as [[] [] [] [] [] [] [] []]; by vm_compute. Qed.

Lemma strip_numeral s :
  numeral_chars s = true →
  PyInt.strip (list_ascii_of_string s) = list_ascii_of_string s.
Proof.
  intros Hs.
  assert (Forall (λ c, PyInt.is_space c = false) (list_ascii_of_string s)) as Hf.
  { induction s as [|c s IH]; simpl in *; [done|].
    apply andb_true_iff in Hs as [Hc Hs].
    constructor; [by apply numeral_not_space|auto]. }
  assert (∀ l, Forall (λ c, PyInt.is_space c = false) l → PyInt.lstrip l = l)
    as Hl.
  { intros [|c l] Hcl; [done|]. simpl. by rewrite (Forall_inv Hcl). }
  unfold PyInt.strip. rewrite (Hl _ Hf).
  rewrite Hl; [apply rev_involutive|].
  apply Forall_forall. intros c Hc. apply list_elem_of_In, in_rev in Hc.
  by apply (proj1 (Forall_forall _ _) Hf), list_elem_of_In.
Qed.

Lemma digits_le_length s : PyInt.digits s ≤ length s.
Proof.
  induction s as [|c s IH]; simpl; [done|].
  destruct (PyInt.digit_of c); lia.
Qed.

Lemma chars_length s : length (list_ascii_of_string s) = String.length s.
Proof. induction s as [|c s IH]; simpl; [done|]. by rewrite IH. Qed.

Lemma pretty_N_go_length k : ∀ x s,
  (x < 10 ^ N.of_nat k)%N →
  String.length (pretty_N_go x s) ≤ String.length s + k.
Proof.
  induction k as [|k IH]; intros x s Hx.
  - assert (x = 0%N) as -> by (simpl in Hx; lia). rewrite pretty_N_go_0. lia.
  - assert (x = 0 ∨ 0 < x)%N as [->|Hpos] by lia.
    { rewrite pretty_N_go_0. lia. }
    rewrite pretty_N_go_step by done.
    etrans; [apply IH|simpl; lia].
    apply N.Div0.div_lt_upper_bound.
    rewrite Nat2N.inj_succ, N.pow_succ_r' in Hx. done.
Qed.

Lemma str_int_length z : in_int64 z → String.length (str_int z) ≤ 20.
Proof.
  intros [Hlo Hhi]. unfold Np.int64_min, Np.int64_max in *.
  unfold str_int, pretty, pretty_Z. destruct z as [|p|p]; [simpl; lia| |].
  - change (pretty p) with (pretty (Npos p)). unfold pretty, pretty_N.
    rewrite decide_False by done.
    pose proof (pretty_N_go_length 19 (Npos p) "") as H. simpl in H.
    etrans; [apply H|lia]. lia.
  - change (pretty p) with (pretty (Npos p)). unfold pretty, pretty_N.
    rewrite decide_False by done.
    pose proof (pretty_N_go_length 19 (Npos p) "") as H. simpl in H.
    simpl. apply le_n_S. etrans; [apply H|lia]. lia.
Qed.

Lemma int_str_int z : in_int64 z → PyInt.int (str_int z) = Some z.
Proof.
  intros Hz. unfold PyInt.int. rewrite strip_numeral by apply str_int_numeral.
  assert ((PyInt.max_str_digits
           <? PyInt.digits (list_ascii_of_string (str_int z))) = false) as ->.
  { apply Nat.ltb_ge. etrans; [apply digits_le_length|].
    rewrite chars_length. etrans; [by apply str_int_length|].
    unfold PyInt.max_str_digits. lia. }
  unfold str_int, pretty, pretty_Z. destruct z as [|p|p]; [done| |].
  - apply literal_digits. apply (digitpart_pretty_N (Npos p)).
  - change (PyInt.literal ("-"%char :: list_ascii_of_string (pretty (Npos p)))
            = Some (Z.neg p)).
    change (Z.opp <$> PyInt.digitpart (list_ascii_of_string (pretty (Npos p)))
                        0 false = Some (Z.neg p)).
    by rewrite (digitpart_pretty_N (Npos p)).
Qed.

(** * The [try] statement and the whole run *)

Lemma annotate_eq m :
  annotate m = for_each (rows_from (edf m) 0 (Pd.index (edf m))) loop_body m.
Proof. reflexivity. Qed.

Lemma annotate_untouched m : untouched m (annotate m).2.
Proof. rewrite annotate_eq. apply for_each_untouched. Qed.

Lemma script_eq m :
  script m =
  match finalize (annotate m).2 with
  | (inl e', m2) => (inl e', m2)
  | (inr _, m2) => ((annotate m).1, m2)
  end.
Proof.
  unfold script, try_finally. destruct (annotate m) as [r m1]. simpl.
  by destruct (finalize m1) as [[e'|[]] m2].
Qed.

Lemma finalize_fail m :
  Pd.index (edf m) ≠ 0 → Pd.index (edf m) ≠ length (ans m) →
  finalize m = (inl (ValueError_length (length (ans m)) (Pd.index (edf m))), m).
Proof.
  intros H0 Hne. run_finalize. by rewrite setitem_fail.
Qed.

Lemma finalize_ok m :
  Pd.index (edf m) = length (ans m) ∨ Pd.index (edf m) = 0 →
  ∃ df',
    Pd.setitem (edf m) (label_name (length (Pd.columns (edf m)))) (ans m) = inr df'
    ∧ finalize m =
        (inr tt,
         {| edf := df'; ans := ans m;
            world := {| stdin := stdin (world m);
                        fs := <[path := Pd.to_csv df' false]> (fs (world m));
                        log := log (world m) ++ [FileWrite path (Pd.to_csv df' false)] |} |}).
Proof.
  intros H. destruct (setitem_ok (edf m) (label_name (length (Pd.columns (edf m))))
                        (ans m) H) as [df' Hdf'].
  exists df'. split; [done|]. run_finalize. by rewrite Hdf'.
Qed.

Lemma boot_ans_length df w : length (ans (boot df w)) = 1000.
Proof. apply length_replicate. Qed.

Lemma finalize_ans m : ans (finalize m).2 = ans m.
Proof. run_finalize. by destruct (Pd.setitem _ _ _). Qed.

Lemma finalize_effect m :
  (edf (finalize m).2 = edf m ∨ (finalize m).1 = inr tt)
  ∧ stdin (world (finalize m).2) = stdin (world m)
  ∧ ((finalize m).2 = m
     ∨ ∃ t', fs (world (finalize m).2) = <[path := t']> (fs (world m))
             ∧ log (world (finalize m).2) = log (world m) ++ [FileWrite path t']).
Proof.
  run_finalize. destruct (Pd.setitem _ _ _) as [e|df']; simpl; eauto 10.
Qed.

Lemma body_ans_other i row m j :
  j ≠ i → ans (body i row m).2 !! j = ans m !! j.
Proof.
  intros Hne. run_body. destruct (Pd.getattr row "text"); simpl; [done|].
  destruct (stdin (world m)) as [|[val|] rest]; simpl; [done| |done].
  unfold Np.setitem. destruct (decide _); [|done].
  destruct (Np.coerce val); simpl; [done|].
  by rewrite list_lookup_insert_ne.
Qed.

Lemma body_no_text i row m e :
  Pd.getattr row "text" = inl e →
  body i row m
  = (inl e, {| edf := edf m; ans := ans m;
               world := {| stdin := stdin (world m); fs := fs (world m);
                           log := log (world m) ++ [Stdout (info i +:+ nl)] |} |}).
Proof. intros He. run_body. by rewrite He. Qed.

Lemma run_eq df w :
  run df w = ((script (boot df w)).1, world (script (boot df w)).2).
Proof. unfold run. by destruct (script _). Qed.

Lemma main_run w t df :
  fs w !! path = Some t → Pd.read_csv t = Some (inr df) →
  main w = Some (run df w).
Proof. intros Hfs Hread. unfold main. by rewrite Hfs, Hread. Qed.

Lemma text_column t df :
  Pd.read_csv t = Some (inr df) → "text" ∈ Pd.header t → "text" ∈ Pd.columns df.
Proof.
  intros Hread Hin. destruct (read_csv_inv _ _ Hread) as (_ & _ & Hnames & _).
  by apply (in_parsed_names _ _ _ Hnames Hin).
Qed.

(** A run on a table of 1000 rows, or of none: the buffer the loop left is
    attached under the name derived from the header, and the file is
    written once. *)
Lemma run_saves w t df :
  Pd.read_csv t = Some (inr df) →
  length (Pd.records t) = 1000 ∨ length (Pd.records t) = 0 →
  ∃ df',
    Pd.setitem df (label_name (length (Pd.header t)))
               (ans (annotate (boot df w)).2) = inr df'
    ∧ (run df w).1 = (annotate (boot df w)).1
    ∧ stdin (run df w).2 = stdin (world (annotate (boot df w)).2)
    ∧ fs (run df w).2 = <[path := Pd.to_csv df' false]> (fs w)
    ∧ writes (log (run df w).2) = writes (log w) ++ [(path, Pd.to_csv df' false)]
    ∧ log (run df w).2
      = log (world (annotate (boot df w)).2)
        ++ [FileWrite path (Pd.to_csv df' false)].
Proof.
  intros Hread Hrows. rewrite run_eq, script_eq.
  destruct (read_csv_inv _ _ Hread) as (_ & Hidx & _ & Hcols).
  destruct (annotate_untouched (boot df w)) as (Hedf & Hfsm & Hlen & Hw).
  set (m1 := (annotate (boot df w)).2) in *.
  rewrite boot_ans_length in Hlen. cbn [boot edf world] in Hedf, Hfsm, Hw.
  destruct (finalize_ok m1) as (df' & Hset & ->).
  { rewrite Hedf, Hlen, Hidx. done. }
  rewrite Hedf, Hcols in Hset. exists df'. simpl.
  rewrite writes_app, Hw, Hfsm. done.
Qed.

(** A run on a table with rows, but not 1000 of them: the attach raises
    and nothing is written. *)
Lemma run_fails w t df :
  Pd.read_csv t = Some (inr df) →
  length (Pd.records t) ≠ 1000 → length (Pd.records t) ≠ 0 →
  (run df w).1 = inl (ValueError_length 1000 (length (Pd.records t)))
  ∧ fs (run df w).2 = fs w
  ∧ writes (log (run df w).2) = writes (log w).
Proof.
  intros Hread H1000 H0. rewrite run_eq, script_eq.
  destruct (read_csv_inv _ _ Hread) as (_ & Hidx & _).
  destruct (annotate_untouched (boot df w)) as (Hedf & Hfsm & Hlen & Hw).
  set (m1 := (annotate (boot df w)).2) in *.
  rewrite boot_ans_length in Hlen. cbn [boot edf world] in Hedf, Hfsm, Hw.
  rewrite finalize_fail by (rewrite Hedf, ?Hlen, Hidx; done).
  simpl. by rewrite Hedf, Hlen, Hidx.
Qed.

(** What a run on 1000 rows, or on none, leaves on disk. *)
Lemma run_saves_table w t df :
  Pd.read_csv t = Some (inr df) →
  length (Pd.records t) = 1000 ∨ length (Pd.records t) = 0 →
  let name := label_name (length (Pd.header t)) in
  let m1 := (annotate (boot df w)).2 in
  ∃ t', writes (log (run df w).2) = writes (log w) ++ [(path, t')]
        ∧ fs (run df w).2 = <[path := t']> (fs w)
        ∧ (run df w).1 = (annotate (boot df w)).1
        ∧ Pd.header t' =
            (if decide (name ∈ Pd.columns df) then Pd.columns df
             else Pd.columns df ++ [name])
        ∧ Pd.csv_column t' name = Some (str_int <$> ans m1)
        ∧ length (ans m1) = 1000
        ∧ length (Pd.records t') = 1000
        ∧ Forall (λ r, length r = length (Pd.header t')) (Pd.records t').
Proof.
  intros Hread Hrows name m1.
  destruct (run_saves w t df Hread Hrows)
    as (df' & Hset & Hres & _ & Hfs' & Hw & _).
  destruct (setitem_inv _ _ _ _ Hset) as (Hi' & Hc' & _).
  destruct (annotate_untouched (boot df w)) as (_ & _ & Hlen & _).
  rewrite boot_ans_length in Hlen. fold m1 in Hset, Hlen, Hi'.
  exists (Pd.to_csv df' false). split_and!; try done.
  - by apply setitem_column with (df := df).
  - by rewrite (proj1 (to_csv_shape df')), Hi'.
  - apply to_csv_shape.
Qed.

Lemma inserts_full (zs : list Z) (n : nat) (x : Z) :
  length zs ≤ n →
  list_inserts 0 zs (replicate n x) = zs ++ replicate (n - length zs) x.
Proof.
  intros Hle. replace n with (length zs + (n - length zs)) at 1 by lia.
  rewrite replicate_add. apply list_inserts_0_r. by rewrite length_replicate.
Qed.

(** The loop on a fresh buffer: [N] good entries, then the end. *)
Lemma annotate_run df w ss zs rest r :
  "text" ∈ Pd.columns df →
  stdin w = (Typed <$> ss) ++ rest →
  Forall2 coerces ss zs →
  length ss ≤ 1000 →
  outcome_after (Pd.index df) (length ss) rest = Some r →
  (annotate (boot df w)).1 = r
  ∧ ans (annotate (boot df w)).2 = zs ++ replicate (1000 - length zs) (-1)%Z
  ∧ (r = inr tt → stdin (world (annotate (boot df w)).2) = rest).
Proof.
  intros Htext Hin Hzs Hle Hout. rewrite annotate_eq. cbn [boot edf].
  pose proof (Forall2_length _ _ _ Hzs) as Hlen.
  unfold outcome_after in Hout.
  destruct (loop_prefix df Htext ss zs Hzs rest (Pd.index df - length ss) 0
              (boot df w) Hin) as (m' & Hrun & Hans & Hrest & Hf).
  { rewrite boot_ans_length. lia. }
  change (ans (boot df w)) with (replicate 1000 (-1)%Z) in Hans.
  rewrite inserts_full in Hans by (rewrite <-Hlen; done).
  cbn [Nat.add] in Hrun.
  destruct (decide (length ss = Pd.index df)) as [Heq|Hne].
  - injection Hout as <-.
    replace (length ss + (Pd.index df - length ss)) with (Pd.index df) in Hrun by lia.
    replace (Pd.index df - length ss) with 0 in Hrun by lia.
    rewrite Hrun. simpl. done.
  - destruct (decide (length ss < Pd.index df)) as [Hlt|]; [|done].
    destruct (stops_with _ _ _) as [e|] eqn:Hstop; [|done]. injection Hout as <-.
    replace (length ss + (Pd.index df - length ss)) with (Pd.index df) in Hrun by lia.
    rewrite Hrun. destruct (Pd.index df - length ss) as [|n] eqn:Hn; [lia|].
    rewrite rows_from_S, for_each_cons. unfold loop_body at 1 3 5. simpl.
    destruct (getattr_row df (length ss) "text" Htext) as [c Hc].
    destruct (body_stop (length ss) _ c m' e Hc) as (m'' & -> & Hans'' & _).
    { destruct Hf as (_&_&->&_). by rewrite boot_ans_length, Hrest. }
    simpl. by rewrite Hans'', Hans.
Qed.

Lemma shown_text df i c :
  Pd.getattr (Pd.row df i) "text" = inr c →
  shown df i = [Stdout (info i +:+ nl); Stdout (question c)].
Proof. intros Hc. unfold shown. by rewrite Hc. Qed.

Lemma body_stop_log i row c m e :
  Pd.getattr row "text" = inr c →
  stops_with i (length (ans m)) (stdin (world m)) = Some e →
  ∃ m', body i row m = (inl e, m')
        ∧ log (world m') =
            log (world m) ++ [Stdout (info i +:+ nl); Stdout (question c)].
Proof.
  intros Hc Hs. run_body. rewrite Hc. simpl.
  unfold stops_with in Hs. destruct (stdin (world m)) as [|[val|] rest]; simpl.
  - injection Hs as <-. eexists. split; [done|]. simpl. by rewrite <-app_assoc.
  - unfold Np.setitem. destruct (decide _).
    + destruct (Np.coerce val); [|done]. injection Hs as <-. simpl.
      eexists. split; [done|]. simpl. by rewrite <-app_assoc.
    + injection Hs as <-. simpl.
      eexists. split; [done|]. simpl. by rewrite <-app_assoc.
  - injection Hs as <-. eexists. split; [done|]. simpl. by rewrite <-app_assoc.
Qed.

Lemma transcript_S df k : transcript df (S k) = transcript df k ++ shown df k.
Proof.
  unfold transcript. rewrite seq_S, fmap_app. simpl.
  rewrite join_app. simpl. by rewrite app_nil_r.
Qed.

(** The console during a prefix of good entries: legend and question of
    each row passed, in row order. *)
Lemma loop_prefix_log df (Htext : "text" ∈ Pd.columns df) ss zs :
  Forall2 coerces ss zs →
  ∀ rest n i0 m,
    stdin (world m) = (Typed <$> ss) ++ rest →
    i0 + length ss ≤ length (ans m) →
    ∃ m', for_each (rows_from df i0 (length ss + n)) loop_body m
          = for_each (rows_from df (i0 + length ss) n) loop_body m'
          ∧ stdin (world m') = rest
          ∧ length (ans m') = length (ans m)
          ∧ log (world m')
            = log (world m) ++ mjoin (shown df <$> seq i0 (length ss)).
Proof.
  induction 1 as [|s z ss zs Hz _ IH]; intros rest n i0 m Hin Hlen;
    cbn [length Nat.add fmap list_fmap app] in *.
  - exists m. rewrite Nat.add_0_r. simpl. by rewrite app_nil_r.
  - destruct (getattr_row df i0 "text" Htext) as [c Hc].
    destruct (body_store i0 _ c m s _ z Hc Hin ltac:(lia) Hz)
      as (m1 & Hb & Hans & Hrest & Hlog).
    destruct (IH rest n (S i0) m1 Hrest) as (m' & Hrun & Hrest' & Hlen' & Hlog').
    { rewrite Hans, length_insert. lia. }
    exists m'. rewrite rows_from_S, for_each_cons. unfold loop_body at 1.
    cbn [fst snd]. rewrite Hb, Hrun.
    replace (i0 + S (length ss)) with (S i0 + length ss) by lia.
    split_and!; [done|done|by rewrite Hlen', Hans, length_insert|].
    rewrite Hlog', Hlog. cbn [seq fmap list_fmap mjoin list_join].
    rewrite (shown_text df i0 c Hc). by rewrite <-app_assoc.
Qed.

(** The console of the loop after a prefix of good entries. *)
Lemma annotate_log w df ss zs rest r :
  "text" ∈ Pd.columns df →
  stdin w = (Typed <$> ss) ++ rest →
  Forall2 coerces ss zs →
  length ss ≤ 1000 →
  outcome_after (Pd.index df) (length ss) rest = Some r →
  log (world (annotate (boot df w)).2)
  = log w ++ transcript df (if r is inr _ then length ss else S (length ss))
  ∧ stdin (world (annotate (boot df w)).2)
    = (if r is inr _ then rest else tail rest).
Proof.
  intros Htext Hin Hzs Hle Hout. rewrite annotate_eq. cbn [boot edf].
  unfold outcome_after in Hout.
  destruct (loop_prefix_log df Htext ss zs Hzs rest (Pd.index df - length ss) 0
              (boot df w) Hin) as (m' & Hrun & Hrest & Hlen & Hlog).
  { rewrite boot_ans_length. lia. }
  cbn [Nat.add] in Hrun. rewrite boot_ans_length in Hlen.
  change (log (world (boot df w))) with (log w) in Hlog.
  fold (transcript df (length ss)) in Hlog.
  destruct (decide (length ss = Pd.index df)) as [Heq|Hne].
  - injection Hout as <-.
    replace (length ss + (Pd.index df - length ss)) with (Pd.index df) in Hrun by lia.
    replace (Pd.index df - length ss) with 0 in Hrun by lia.
    rewrite Hrun. simpl. done.
  - destruct (decide (length ss < Pd.index df)) as [Hlt|]; [|done].
    destruct (stops_with _ _ _) as [e|] eqn:Hstop; [|done]. injection Hout as <-.
    replace (length ss + (Pd.index df - length ss)) with (Pd.index df) in Hrun by lia.
    rewrite Hrun. destruct (Pd.index df - length ss) as [|n] eqn:Hn; [lia|].
    rewrite rows_from_S, for_each_cons. unfold loop_body at 1 3. cbn [fst snd].
    destruct (getattr_row df (length ss) "text" Htext) as [c Hc].
    destruct (body_stop_log (length ss) _ c m' e Hc) as (m'' & Hb & Hlog'').
    { by rewrite Hlen, Hrest. }
    destruct (body_stop (length ss) _ c m' e Hc) as (m3 & Hb3 & _ & Hin3).
    { by rewrite Hlen, Hrest. }
    rewrite Hb in Hb3. injection Hb3 as <-.
    rewrite Hb. cbn [snd]. split.
    + rewrite Hlog'', Hlog, transcript_S, (shown_text _ _ _ Hc).
      by rewrite <-app_assoc.
    + by rewrite Hin3, Hrest.
Qed.

(** * The claims *)

(** C1, as amended. For every dataset of exactly 1000 rows with a [text]
    column and every number N ≤ 1000 of rows annotated with ASCII entries
    before the loop ends (by passing the last row, an entry that does not
    coerce, an interrupt or the end of the input), the label column of the
    saved file holds the N integers entered, in row order, followed by
    1000 - N entries -1. *)
Theorem C1_saved_labels w t df ss zs rest r :
  fs w !! path = Some t → Pd.read_csv t = Some (inr df) →
  length (Pd.records t) = 1000 → "text" ∈ Pd.header t →
  stdin w = (Typed <$> ss) ++ rest → ascii_input (stdin w) →
  Forall2 coerces ss zs → length ss ≤ 1000 →
  outcome_after 1000 (length ss) rest = Some r →
  main w = Some (run df w)
  ∧ ∃ t', fs (run df w).2 !! path = Some t'
          ∧ length (Pd.records t') = 1000
          ∧ Pd.csv_column t' (label_name (length (Pd.header t)))
            = Some ((str_int <$> zs) ++ replicate (1000 - length ss) "-1").
Proof.
  intros Hfs Hread Hrows Htext Hin _ Hzs HN Hout.
  split; [by apply main_run with (t := t)|].
  destruct (read_csv_inv _ _ Hread) as (_ & Hidx & _).
  destruct (run_saves w t df Hread (or_introl Hrows))
    as (df' & Hset & _ & _ & Hfs' & _).
  destruct (annotate_run df w ss zs rest r) as (_ & Hans & _);
    [by apply text_column with (t := t)|done|done|done
    |by rewrite Hidx, Hrows|].
  exists (Pd.to_csv df' false). split; [by rewrite Hfs', lookup_insert_eq|].
  destruct (setitem_inv _ _ _ _ Hset) as (Hi' & _ & _).
  split.
  { rewrite (proj1 (to_csv_shape df')), Hi', Hans, length_app, length_replicate.
    pose proof (Forall2_length _ _ _ Hzs). lia. }
  rewrite (setitem_column _ _ _ _ Hset), Hans, fmap_app, fmap_replicate.
  by rewrite str_int_minus_one, (Forall2_length _ _ _ Hzs).
Qed.

Lemma C1_saved_labels_witness :
  let w := start (tweets 1000) [Typed "2"; Typed "4"; Interrupt] in
  let df := frame_of (tweets 1000) in
  main w = Some (run df w)
  ∧ ∃ t', fs (run df w).2 !! path = Some t'
          ∧ length (Pd.records t') = 1000
          ∧ Pd.csv_column t' (label_name 2)
            = Some ((str_int <$> [2; 4]%Z) ++ replicate (1000 - 2) "-1").
Proof.
  apply (C1_saved_labels (start (tweets 1000) [Typed "2"; Typed "4"; Interrupt])
           (tweets 1000) (frame_of (tweets 1000)) ["2"; "4"] [2; 4]%Z
           [Interrupt] (inl KeyboardInterrupt)).
  - apply start_lookup.
  - vm_compute. reflexivity.
  - vm_compute. reflexivity.
  - apply list_elem_of_In. simpl. auto.
  - reflexivity.
  - repeat constructor.
  - repeat constructor.
  - simpl. lia.
  - reflexivity.
Defined.

(** The scenario of C1 on the code: a dataset of 5 rows, the entries 2 and
    4, then an interrupt. No column of the file that is on disk after the
    run holds 2, 4, -1, -1, -1; the file is the original one. *)
Lemma C1_counterexample :
  let w := start (tweets 5) [Typed "2"; Typed "4"; Interrupt] in
  ∃ r w', main w = Some (r, w')
          ∧ fs w' !! path = Some (tweets 5)
          ∧ ¬ ∃ t' name, fs w' !! path = Some t'
                         ∧ Pd.csv_column t' name
                           = Some ["2"; "4"; "-1"; "-1"; "-1"].
Proof.
  intros w. exists (run (frame_of (tweets 5)) w).1, (run (frame_of (tweets 5)) w).2.
  assert (fs (run (frame_of (tweets 5)) w).2 !! path = Some (tweets 5)) as Hfs
    by (vm_compute; reflexivity).
  split_and!; [by vm_compute|exact Hfs|].
  intros (t' & name & Ht' & Hcol).
  rewrite Hfs in Ht'. injection Ht' as <-.
  revert Hcol. unfold Pd.csv_column, Pd.field_position. simpl.
  destruct (decide ("id" = name)); [simpl; discriminate|].
  destruct (decide ("text" = name)); simpl; discriminate.
Qed.

(** C2, as amended. On every termination path of the loop the [finally]
    block runs once, on the state the loop left, and computes the label
    name from the column count. For a dataset of 1000 rows (or without
    rows) it attaches the whole buffer under that name, as a new last
    column unless the frame has a column of that name, and overwrites the
    file at the same path, exactly once and without an index field; for
    any other number of rows the attach raises and nothing is written.
    The columns are those pandas reads from the header line. *)
Theorem C2_finalization w t df :
  fs w !! path = Some t → Pd.read_csv t = Some (inr df) →
  let name := label_name (length (Pd.header t)) in
  let m1 := (annotate (boot df w)).2 in
  main w = Some (run df w)
  ∧ Pd.parsed_names (Pd.header t) = Some (Pd.columns df)
  ∧ (script (boot df w)).2 = (finalize m1).2
  ∧ (length (Pd.records t) = 1000 ∨ length (Pd.records t) = 0 →
     ∃ t', writes (log (run df w).2) = writes (log w) ++ [(path, t')]
           ∧ fs (run df w).2 = <[path := t']> (fs w)
           ∧ (run df w).1 = (annotate (boot df w)).1
           ∧ Pd.header t' =
               (if decide (name ∈ Pd.columns df) then Pd.columns df
                else Pd.columns df ++ [name])
           ∧ Pd.csv_column t' name = Some (str_int <$> ans m1)
           ∧ length (ans m1) = 1000
           ∧ length (Pd.records t') = 1000
           ∧ Forall (λ r, length r = length (Pd.header t')) (Pd.records t'))
  ∧ (length (Pd.records t) ≠ 1000 → length (Pd.records t) ≠ 0 →
     (run df w).1 = inl (ValueError_length 1000 (length (Pd.records t)))
     ∧ fs (run df w).2 = fs w
     ∧ writes (log (run df w).2) = writes (log w)).
Proof.
  intros Hfs Hread name m1. split_and!.
  - by apply main_run with (t := t).
  - by destruct (read_csv_inv _ _ Hread) as (_ & _ & ? & _).
  - rewrite script_eq. fold m1. by destruct (finalize m1) as [[e|[]] m2].
  - intros Hrows. by apply run_saves_table.
  - intros H1000 H0. by apply run_fails.
Qed.

Lemma C2_finalization_witness :
  let w := start (tweets 1000) [Typed "1"; Interrupt] in
  let df := frame_of (tweets 1000) in
  main w = Some (run df w)
  ∧ ∃ t', writes (log (run df w).2) = writes (log w) ++ [(path, t')]
          ∧ fs (run df w).2 = <[path := t']> (fs w)
          ∧ Pd.header t' = ["id"; "text"; "test0"]
          ∧ length (Pd.records t') = 1000.
Proof.
  intros w df.
  destruct (C2_finalization w (tweets 1000) df) as (Hmain & _ & _ & Hsave & _).
  - apply start_lookup.
  - vm_compute. reflexivity.
  - split; [exact Hmain|].
    destruct Hsave as (t' & ? & ? & _ & Hh & _ & _ & ? & _).
    + left. vm_compute. reflexivity.
    + exists t'. split_and!; try done.
Defined.

(** A run of C2 on the code: the 3-row dataset, three good entries, the
    loop completes. The [finally] block writes no file. *)
Lemma C2_counterexample :
  let w := start abc [Typed "1"; Typed "3"; Typed "0"] in
  (annotate (boot (frame_of abc) w)).1 = inr tt
  ∧ ∃ r w', main w = Some (r, w')
            ∧ ¬ ∃ t', writes (log w') = [(path, t')].
Proof.
  intros w. split; [vm_compute; reflexivity|].
  exists (run (frame_of abc) w).1, (run (frame_of abc) w).2.
  split; [by vm_compute|].
  intros (t' & Hw). vm_compute in Hw. discriminate Hw.
Qed.

(** C3, as amended. For every dataset that has rows, but not 1000 of
    them, the attach in the [finally] block raises the length mismatch
    before the write is reached: the run ends with that error, the file is
    unchanged and no write took place. *)
Theorem C3_length_mismatch w t df :
  fs w !! path = Some t → Pd.read_csv t = Some (inr df) →
  length (Pd.records t) ≠ 1000 → length (Pd.records t) ≠ 0 →
  main w = Some (run df w)
  ∧ (run df w).1 = inl (ValueError_length 1000 (length (Pd.records t)))
  ∧ fs (run df w).2 = fs w
  ∧ fs (run df w).2 !! path = Some t
  ∧ writes (log (run df w).2) = writes (log w).
Proof.
  intros Hfs Hread H1000 H0.
  destruct (run_fails w t df Hread H1000 H0) as (Hr & Hfs' & Hw).
  split_and!; try done; [by apply main_run with (t := t)|by rewrite Hfs'].
Qed.

Lemma C3_length_mismatch_witness :
  let w := start abc [Typed "1"; Typed "3"; Typed "0"] in
  let df := frame_of abc in
  main w = Some (run df w)
  ∧ (run df w).1 = inl (ValueError_length 1000 3)
  ∧ fs (run df w).2 = fs w
  ∧ fs (run df w).2 !! path = Some abc
  ∧ writes (log (run df w).2) = writes (log w).
Proof.
  intros w df. apply (C3_length_mismatch w abc (frame_of abc)).
  - apply start_lookup.
  - reflexivity.
  - simpl. lia.
  - simpl. lia.
Defined.

(** C3 on a dataset without rows (a header line only): the row count
    differs from 1000, yet the frame takes the index of the buffer, the
    attach succeeds, and the file is rewritten with 1000 records. *)
Lemma C3_counterexample :
  let w := start header_only [] in
  length (Pd.records header_only) ≠ 1000
  ∧ ∃ w', main w = Some (inr tt, w')
          ∧ fs w' !! path ≠ Some header_only
          ∧ Pd.records <$> (fs w' !! path)
            = Some (replicate 1000 [""; ""; "-1"]).
Proof.
  intros w. split; [simpl; lia|].
  exists (run (frame_of header_only) w).2.
  assert (Pd.records <$> (fs (run (frame_of header_only) w).2 !! path)
          = Some (replicate 1000 [""; ""; "-1"])) as H
    by (vm_compute; reflexivity).
  split_and!; [by vm_compute| |exact H].
  intros Heq. rewrite Heq in H. vm_compute in H. discriminate H.
Qed.

(** C4. Whenever a run writes the file, the label column it wrote is
    named "test" followed by the decimal of the original column count
    minus 2: the name is a function of the number of columns alone,
    whatever the rows hold and whatever the operator typed. The header
    written is that of the frame pandas read, with the label name added
    when the frame did not have it. *)
Theorem C4_label_name w t df p t' :
  fs w !! path = Some t → Pd.read_csv t = Some (inr df) →
  writes (log (run df w).2) = writes (log w) ++ [(p, t')] →
  let name := "test" +:+ pretty (Z.of_nat (length (Pd.header t)) - 2)%Z in
  main w = Some (run df w)
  ∧ name ∈ Pd.header t'
  ∧ Pd.header t' =
      (if decide (name ∈ Pd.columns df) then Pd.columns df
       else Pd.columns df ++ [name])
  ∧ Pd.parsed_names (Pd.header t) = Some (Pd.columns df)
  ∧ ∃ a : list Z, length a = 1000 ∧ Pd.csv_column t' name = Some (str_int <$> a).
Proof.
  intros Hfs Hread Hw name.
  split; [by apply main_run with (t := t)|].
  destruct (read_csv_inv _ _ Hread) as (_ & _ & Hnames & _).
  destruct (decide (length (Pd.records t) = 1000 ∨ length (Pd.records t) = 0))
    as [Hrows|Hrows].
  - destruct (run_saves_table w t df Hread Hrows)
      as (t1 & Hw1 & _ & _ & Hh & Hcol & Hlen & _).
    rewrite Hw in Hw1. apply app_inv_head in Hw1. injection Hw1 as -> ->.
    fold (label_name (length (Pd.header t))) in name.
    change (label_name (length (Pd.header t))) with name in Hh, Hcol.
    split; [|split; [done|split; [done|eauto]]].
    rewrite Hh. destruct (decide _); [done|]. apply elem_of_app. right.
    by apply list_elem_of_singleton.
  - destruct (run_fails w t df Hread) as (_ & _ & Hw0); [tauto..|].
    rewrite Hw0 in Hw. apply (f_equal length) in Hw.
    rewrite length_app in Hw. simpl in Hw. lia.
Qed.

Lemma C4_label_name_witness :
  let w := start (tweets 1000) [Typed "1"; Interrupt] in
  let df := frame_of (tweets 1000) in
  let t' := default header_only (fs (run df w).2 !! path) in
  main w = Some (run df w)
  ∧ "test0" ∈ Pd.header t' ∧ Pd.header t' = ["id"; "text"; "test0"].
Proof.
  intros w df t'.
  destruct (C4_label_name w (tweets 1000) df path t')
    as (Hmain & Hin & Hh & _).
  - apply start_lookup.
  - vm_compute. reflexivity.
  - vm_compute. reflexivity.
  - split_and!; [exact Hmain|exact Hin|exact Hh].
Defined.

(** C5, as amended. On a dataset of exactly 1000 rows with a [text]
    column, an ASCII entry that does not coerce to a 64-bit integer ends
    the run with that coercion failure, after the [finally] block has
    written the file once with the labels entered so far followed by -1
    for the other rows; when the bad entry is the first one, every entry
    of the new column is -1. *)
Theorem C5_coercion_failure w t df ss zs bad rest e :
  fs w !! path = Some t → Pd.read_csv t = Some (inr df) →
  length (Pd.records t) = 1000 → "text" ∈ Pd.header t →
  stdin w = (Typed <$> ss) ++ Typed bad :: rest →
  Forall2 coerces ss zs → length ss < 1000 →
  ascii_only bad = true → Np.coerce bad = inl e →
  main w = Some (run df w)
  ∧ (run df w).1 = inl e
  ∧ ∃ t', writes (log (run df w).2) = writes (log w) ++ [(path, t')]
          ∧ fs (run df w).2 !! path = Some t'
          ∧ Pd.csv_column t' (label_name (length (Pd.header t)))
            = Some ((str_int <$> zs) ++ replicate (1000 - length ss) "-1")
          ∧ (ss = [] →
             Pd.csv_column t' (label_name (length (Pd.header t)))
             = Some (replicate 1000 "-1")).
Proof.
  intros Hfs Hread Hrows Htext Hin Hzs HN _ Hbad.
  split; [by apply main_run with (t := t)|].
  destruct (read_csv_inv _ _ Hread) as (_ & Hidx & _).
  destruct (run_saves_table w t df Hread (or_introl Hrows))
    as (t' & Hw & Hfs' & Hres & _ & Hcol & _).
  destruct (annotate_run df w ss zs (Typed bad :: rest) (inl e))
    as (Hr & Hans & _);
    [by apply text_column with (t := t)|done|done|lia| |].
  { unfold outcome_after. rewrite Hidx, Hrows.
    rewrite decide_False, decide_True by lia. simpl.
    rewrite decide_True by done. by rewrite Hbad. }
  split; [by rewrite Hres, Hr|]. exists t'.
  assert (Pd.csv_column t' (label_name (length (Pd.header t)))
          = Some ((str_int <$> zs) ++ replicate (1000 - length ss) "-1")) as Hc.
  { rewrite Hcol, Hans, fmap_app, fmap_replicate.
    by rewrite str_int_minus_one, (Forall2_length _ _ _ Hzs). }
  split_and!; [done|by rewrite Hfs', lookup_insert_eq|done|].
  intros ->. apply Forall2_nil_inv_l in Hzs as ->. exact Hc.
Qed.

Lemma C5_coercion_failure_witness :
  let w := start (tweets 1000) [Typed "x"] in
  let df := frame_of (tweets 1000) in
  main w = Some (run df w)
  ∧ (run df w).1 = inl (ValueError_literal "x")
  ∧ ∃ t', writes (log (run df w).2) = writes (log w) ++ [(path, t')]
          ∧ fs (run df w).2 !! path = Some t'
          ∧ Pd.csv_column t' (label_name 2)
            = Some ((str_int <$> []) ++ replicate (1000 - 0) "-1")
          ∧ (@nil string = [] →
             Pd.csv_column t' (label_name 2) = Some (replicate 1000 "-1")).
Proof.
  intros w df.
  apply (C5_coercion_failure w (tweets 1000) (frame_of (tweets 1000))
           [] [] "x" [] (ValueError_literal "x")).
  - apply start_lookup.
  - vm_compute. reflexivity.
  - vm_compute. reflexivity.
  - apply list_elem_of_In. simpl. auto.
  - reflexivity.
  - constructor.
  - simpl. lia.
  - reflexivity.
  - reflexivity.
Defined.

(** The scenario of C5 on the code, with the 3-row dataset: the text "x"
    on row 1. The error that ends the run is the length mismatch of the
    attach, not the coercion failure, and the file has no new column. *)
Lemma C5_counterexample :
  let w := start abc [Typed "x"] in
  Np.coerce "x" = inl (ValueError_literal "x")
  ∧ ∃ w', main w = Some (inl (ValueError_length 1000 3), w')
          ∧ fs w' !! path = Some abc
          ∧ ¬ ∃ t' name, fs w' !! path = Some t'
                         ∧ Pd.csv_column t' name = Some ["-1"; "-1"; "-1"].
Proof.
  intros w. split; [reflexivity|].
  exists (run (frame_of abc) w).2.
  assert (fs (run (frame_of abc) w).2 !! path = Some abc) as Hfs
    by (vm_compute; reflexivity).
  split_and!; [by vm_compute|exact Hfs|].
  intros (t' & name & Ht' & Hcol). rewrite Hfs in Ht'. injection Ht' as <-.
  revert Hcol. unfold Pd.csv_column, Pd.field_position. simpl.
  destruct (decide ("id" = name)); [simpl; discriminate|].
  destruct (decide ("text" = name)); simpl; discriminate.
Qed.




(** C7. For every dataset with more than 1000 rows the loop cannot pass
    all rows, whatever the operator types: the store for the 1001st row
    addresses index 1000 of a buffer of 1000 entries, which raises
    IndexError; after 1000 good entries this is the error that ends the
    loop. *)
Theorem C7_overrun w t df :
  Pd.read_csv t = Some (inr df) → 1000 < length (Pd.records t) →
  (annotate (boot df w)).1 ≠ inr tt
  ∧ (∀ (a : list Z) val,
       length a = 1000 → Np.setitem a 1000 val = inl (IndexError 1000 1000))
  ∧ (∀ ss zs val rest,
       "text" ∈ Pd.header t →
       stdin w = (Typed <$> ss) ++ Typed val :: rest →
       Forall2 coerces ss zs → length ss = 1000 →
       (annotate (boot df w)).1 = inl (IndexError 1000 1000)
       ∧ ans (annotate (boot df w)).2 = zs).
Proof.
  intros Hread Hrows. destruct (read_csv_inv _ _ Hread) as (_ & Hidx & _).
  split_and!.
  - rewrite annotate_eq. apply loop_overrun; rewrite boot_ans_length; [lia|].
    cbn [boot edf]. lia.
  - intros a val Ha. unfold Np.setitem. rewrite Ha.
    by rewrite decide_False by lia.
  - intros ss zs val rest Htext Hin Hzs Hlen.
    destruct (annotate_run df w ss zs (Typed val :: rest)
                (inl (IndexError 1000 1000))) as (Hr & Hans & _);
      [by apply text_column with (t := t)|done|done|lia| |].
    { unfold outcome_after. rewrite Hidx, Hlen.
      rewrite decide_False, decide_True by lia. reflexivity. }
    split; [done|]. rewrite Hans, <-(Forall2_length _ _ _ Hzs), Hlen.
    rewrite Nat.sub_diag. apply app_nil_r.
Qed.

Lemma C7_overrun_witness :
  let w := start (tweets 1001) (Typed <$> replicate 1001 "0") in
  (annotate (boot (frame_of (tweets 1001)) w)).1 ≠ inr tt
  ∧ (annotate (boot (frame_of (tweets 1001)) w)).1 = inl (IndexError 1000 1000)
  ∧ ans (annotate (boot (frame_of (tweets 1001)) w)).2 = replicate 1000 0%Z.
Proof.
  intros w.
  destruct (C7_overrun w (tweets 1001) (frame_of (tweets 1001)))
    as (Hnot & _ & Hidx).
  - vm_compute. reflexivity.
  - vm_compute. lia.
  - split; [exact Hnot|].
    apply (Hidx (replicate 1000 "0") (replicate 1000 0%Z) "0" []).
    + apply list_elem_of_In. simpl. auto.
    + vm_compute. reflexivity.
    + apply Forall2_replicate. reflexivity.
    + apply length_replicate.
Defined.

(** C8. Every run starts from a fresh buffer of exactly 1000 integers, all
    -1, whatever the dataset; the buffer has 1000 entries after any number
    of passes through the loop body, at the end of the loop and after the
    [finally] block; one pass leaves every entry other than the one at the
    row's position as it was. *)
Theorem C8_buffer df w :
  ans (boot df w) = replicate 1000 (-1)%Z
  ∧ (∀ t, fs w !! path = Some t → Pd.read_csv t = Some (inr df) →
          main w = Some ((script (boot df w)).1, world (script (boot df w)).2))
  ∧ (∀ k, length (ans (for_each (take k (Pd.iterrows df)) loop_body
                         (boot df w)).2) = 1000)
  ∧ length (ans (annotate (boot df w)).2) = 1000
  ∧ length (ans (script (boot df w)).2) = 1000
  ∧ (∀ i row m, length (ans (body i row m).2) = length (ans m))
  ∧ (∀ i row m j, j ≠ i → ans (body i row m).2 !! j = ans m !! j).
Proof.
  split_and!.
  - reflexivity.
  - intros t Hfs Hread. rewrite <-run_eq. by apply main_run with (t := t).
  - intros k. destruct (for_each_untouched (take k (Pd.iterrows df)) (boot df w))
      as (_ & _ & -> & _). apply boot_ans_length.
  - destruct (annotate_untouched (boot df w)) as (_ & _ & -> & _).
    apply boot_ans_length.
  - rewrite script_eq.
    pose proof (finalize_ans (annotate (boot df w)).2) as Hf.
    destruct (annotate_untouched (boot df w)) as (_ & _ & Hlen & _).
    rewrite boot_ans_length in Hlen.
    destruct (finalize _) as [[e|[]] m2]; simpl in *; by rewrite Hf.
  - intros i row m. by destruct (body_untouched i row m) as (_ & _ & -> & _).
  - intros i row m j. apply body_ans_other.
Qed.

Lemma C8_buffer_witness :
  let w := start abc [Typed "1"; Typed "3"; Typed "0"] in
  main w = Some ((script (boot (frame_of abc) w)).1,
                 world (script (boot (frame_of abc) w)).2)
  ∧ ans (body 0 (Pd.row (frame_of abc) 0) (boot (frame_of abc) w)).2 !! 1
    = ans (boot (frame_of abc) w) !! 1.
Proof.
  intros w.
  destruct (C8_buffer (frame_of abc) w) as (_ & Hmain & _ & _ & _ & _ & Hother).
  split.
  - apply (Hmain abc); [apply start_lookup|reflexivity].
  - apply Hother. lia.
Defined.

(** C9, as amended. In the loop over the rows of a dataset with a [text]
    column, an ASCII entry typed at one of the first 1000 rows is checked
    for nothing but its coercion to a 64-bit integer: every entry that
    coerces, whatever its value, is stored unchanged at the row's position
    and the loop goes on with the next row; the only entry that ends the
    loop at such a row is one that does not coerce, and it ends it with
    the coercion failure. Each row reached is shown and asked once, in
    order, and one line is read per question: no row is asked twice. *)
Theorem C9_no_validation w df ss zs rest r :
  "text" ∈ Pd.columns df →
  stdin w = (Typed <$> ss) ++ rest → ascii_input (stdin w) →
  Forall2 coerces ss zs → length ss ≤ 1000 →
  outcome_after (Pd.index df) (length ss) rest = Some r →
  (annotate (boot df w)).1 = r
  ∧ (∀ k z, zs !! k = Some z → ans (annotate (boot df w)).2 !! k = Some z)
  ∧ (∀ k, length ss ≤ k < 1000 →
          ans (annotate (boot df w)).2 !! k = Some (-1)%Z)
  ∧ (∀ val rest', rest = Typed val :: rest' →
                  length ss < Pd.index df → length ss < 1000 →
                  ∃ e, Np.coerce val = inl e ∧ r = inl e)
  ∧ log (world (annotate (boot df w)).2)
    = log w ++ transcript df (if r is inr _ then length ss else S (length ss))
  ∧ stdin (world (annotate (boot df w)).2)
    = (if r is inr _ then rest else tail rest).
Proof.
  intros Htext Hin _ Hzs Hle Hout.
  destruct (annotate_run df w ss zs rest r Htext Hin Hzs Hle Hout)
    as (Hr & Hans & _).
  destruct (annotate_log w df ss zs rest r Htext Hin Hzs Hle Hout)
    as (Hlog & Hstdin).
  pose proof (Forall2_length _ _ _ Hzs) as Hlen.
  split_and!; try done.
  - intros k z Hk. rewrite Hans. by apply lookup_app_l_Some.
  - intros k Hk. rewrite Hans, lookup_app_r by lia.
    apply lookup_replicate_2. lia.
  - intros val rest' -> Hrows Hbuf. revert Hout. unfold outcome_after.
    rewrite decide_False, decide_True by lia. simpl.
    rewrite decide_True by done.
    destruct (Np.coerce val) as [e|z]; [|done]. intros [= <-]. eauto.
Qed.

Lemma C9_no_validation_witness :
  let w := start abc [Typed "7"; Typed "-3"; Typed "five"] in
  let df := frame_of abc in
  (annotate (boot df w)).1 = inl (ValueError_literal "five")
  ∧ (∀ k z, [7; -3]%Z !! k = Some z →
            ans (annotate (boot df w)).2 !! k = Some z)
  ∧ (∀ k, 2 ≤ k < 1000 → ans (annotate (boot df w)).2 !! k = Some (-1)%Z)
  ∧ (∀ val rest', [Typed "five"] = Typed val :: rest' →
                  2 < 3 → 2 < 1000 →
                  ∃ e, Np.coerce val = inl e
                       ∧ (inl (ValueError_literal "five") : exn + unit)
                         = inl e)
  ∧ log (world (annotate (boot df w)).2) = log w ++ transcript df 3
  ∧ stdin (world (annotate (boot df w)).2) = [].
Proof.
  intros w df.
  apply (C9_no_validation w df ["7"; "-3"] [7; -3]%Z [Typed "five"]
           (inl (ValueError_literal "five"))).
  - apply list_elem_of_In. simpl. auto.
  - reflexivity.
  - repeat constructor.
  - repeat constructor.
  - simpl. lia.
  - reflexivity.
Defined.

(** C9 on the code: the entry 9223372036854775808 is an integer for
    [int], outside 0-4, yet it is not stored: the loop ends with
    OverflowError and the buffer is as it was. And on a dataset of 1001
    rows the entry 0 typed at row 1001 coerces, yet it is not stored: the
    loop ends with IndexError. *)
Lemma C9_counterexample :
  (let w := start abc [Typed "9223372036854775808"] in
   PyInt.int "9223372036854775808" = Some 9223372036854775808%Z
   ∧ (annotate (boot (frame_of abc) w)).1
     = inl (OverflowError 9223372036854775808)
   ∧ ans (annotate (boot (frame_of abc) w)).2 = replicate 1000 (-1)%Z)
  ∧ (let w := start (tweets 1001) (Typed <$> replicate 1001 "0") in
     Np.coerce "0" = inr 0%Z
     ∧ (annotate (boot (frame_of (tweets 1001)) w)).1
       = inl (IndexError 1000 1000)
     ∧ length (ans (annotate (boot (frame_of (tweets 1001)) w)).2) = 1000).
Proof. split; split_and!; by vm_compute. Qed.

(** C10, as amended. For a dataset of exactly 1000 rows whose header
    holds neither of the two names derived from its column count, running
    the program twice in succession adds one column each time: the first
    run appends "test(k-2)" to the columns pandas read, the second run
    appends the different name "test(k-1)" after it, and the first run's
    column is still in the file with its contents. *)
Theorem C10_two_runs w t df keys2 :
  fs w !! path = Some t → Pd.read_csv t = Some (inr df) →
  length (Pd.records t) = 1000 →
  label_name (length (Pd.header t)) ∉ Pd.header t →
  label_name (S (length (Pd.header t))) ∉ Pd.header t →
  let name1 := label_name (length (Pd.header t)) in
  let name2 := label_name (S (length (Pd.header t))) in
  let w1 := rerun (run df w).2 keys2 in
  main w = Some (run df w)
  ∧ Pd.parsed_names (Pd.header t) = Some (Pd.columns df)
  ∧ ∃ df2 t1 t2 labels1 labels2,
      main w1 = Some (run df2 w1)
      ∧ fs w1 !! path = Some t1 ∧ fs (run df2 w1).2 !! path = Some t2
      ∧ Pd.header t1 = Pd.columns df ++ [name1]
      ∧ Pd.header t2 = Pd.columns df ++ [name1; name2]
      ∧ name1 ≠ name2
      ∧ Pd.csv_column t1 name1 = Some labels1
      ∧ Pd.csv_column t2 name1 = Some labels1
      ∧ Pd.csv_column t2 name2 = Some labels2
      ∧ length labels1 = 1000 ∧ length labels2 = 1000.
Proof.
  intros Hfs Hread Hrows Hfresh1 Hfresh2 name1 name2 w1.
  destruct (read_csv_inv _ _ Hread) as (Hh & Hidx & Hnames & Hcols).
  split; [by apply main_run with (t := t)|]. split; [done|].
  assert (name1 ≠ name2) as Hne.
  { intros H%label_name_inj. lia. }
  destruct (parsed_names_inv _ _ Hnames) as (_ & _ & _ & Hnd & _).
  pose proof (parsed_names_nonempty _ _ Hnames) as Hnonempty.
  pose proof (label_name_not_made_up _ _ _ Hnames Hfresh1) as Hnew1.
  pose proof (label_name_not_made_up _ _ _ Hnames Hfresh2) as Hnew2.
  fold name1 in Hnew1. fold name2 in Hnew2.
  (* the first run *)
  destruct (run_saves w t df Hread (or_introl Hrows))
    as (df1 & Hset1 & _ & _ & Hfs1 & _).
  fold name1 in Hset1.
  set (a1 := ans (annotate (boot df w)).2) in *.
  destruct (setitem_inv _ _ _ _ Hset1) as (Hi1 & Hc1 & Hl1).
  rewrite decide_False in Hc1 by done.
  assert (length a1 = 1000) as Ha1 by (destruct Hl1; lia).
  pose proof (setitem_column _ _ _ _ Hset1) as Hcol1.
  set (t1 := Pd.to_csv df1 false) in *.
  assert (Pd.header t1 = Pd.columns df ++ [name1]) as Hh1 by done.
  assert (fs w1 !! path = Some t1) as Hfs1'.
  { unfold w1. simpl. by rewrite Hfs1, lookup_insert_eq. }
  assert (NoDup (Pd.columns df1) ∧ "" ∉ Pd.columns df1) as [Hnd1 Hnonempty1].
  { rewrite Hc1. split.
    - apply NoDup_app. split_and!; [done| |apply NoDup_singleton].
      intros x Hx ->%list_elem_of_singleton. done.
    - intros [?|?%list_elem_of_singleton]%elem_of_app; [done|].
      by apply (label_name_nonempty (length (Pd.header t))). }
  (* the second run reads what the first one wrote *)
  destruct (read_csv_written df1) as [df2 Hread2]; [|done|done|].
  { rewrite Hc1. by destruct (Pd.columns df). }
  fold t1 in Hread2.
  destruct (read_csv_inv _ _ Hread2) as (_ & Hidx2 & Hnames2 & Hcols2).
  change (Pd.parsed_names (Pd.columns df1) = Some (Pd.columns df2))
    in Hnames2.
  rewrite (parsed_names_plain _ Hnd1 Hnonempty1) in Hnames2.
  injection Hnames2 as Hnames2.
  assert (length (Pd.records t1) = 1000) as Hrows2.
  { unfold t1. by rewrite (proj1 (to_csv_shape df1)), Hi1. }
  destruct (run_saves w1 t1 df2 Hread2 (or_introl Hrows2))
    as (df2' & Hset2 & _ & _ & Hfs2 & _).
  set (a2 := ans (annotate (boot df2 w1)).2) in *.
  assert (label_name (length (Pd.header t1)) = name2) as Hn2.
  { rewrite Hh1, length_app, Hcols. simpl. by rewrite Nat.add_1_r. }
  rewrite Hn2 in Hset2.
  destruct (setitem_inv _ _ _ _ Hset2) as (Hi2 & Hc2 & Hl2).
  assert (length a2 = 1000) as Ha2 by (destruct Hl2; lia).
  rewrite <-Hnames2, Hc1, decide_False in Hc2.
  2:{ intros [?|?%list_elem_of_singleton]%elem_of_app; [done|].
      by apply Hne. }
  (* the first label column, read back and written again *)
  destruct (read_csv_first_named _ _ _ _ Hread2 Hcol1) as (j & Hfirst).
  { apply label_name_nonempty. }
  eapply setitem_first_named_other in Hfirst; [|exact Hset2|lia|done].
  destruct Hfirst as [Hj Hleast].
  pose proof (csv_column_to_csv df2' name1 j _ Hj Hleast) as Hkeep.
  rewrite !length_fmap, render_parse_str_int in Hkeep.
  exists df2, t1, (Pd.to_csv df2' false), (str_int <$> a1), (str_int <$> a2).
  split_and!.
  - by apply main_run with (t := t1).
  - done.
  - by rewrite Hfs2, lookup_insert_eq.
  - done.
  - simpl. by rewrite Hc2, <-app_assoc.
  - done.
  - done.
  - apply Hkeep. lia.
  - by apply setitem_column with (df := df2).
  - by rewrite length_fmap.
  - by rewrite length_fmap.
Qed.

Lemma C10_two_runs_witness :
  let w := start (tweets 1000) [Typed "1"; Interrupt] in
  let df := frame_of (tweets 1000) in
  let w1 := rerun (run df w).2 [Typed "1"; Interrupt] in
  main w = Some (run df w)
  ∧ Pd.parsed_names ["id"; "text"] = Some (Pd.columns df)
  ∧ ∃ df2 t1 t2 labels1 labels2,
      main w1 = Some (run df2 w1)
      ∧ fs w1 !! path = Some t1 ∧ fs (run df2 w1).2 !! path = Some t2
      ∧ Pd.header t1 = Pd.columns df ++ ["test0"]
      ∧ Pd.header t2 = Pd.columns df ++ ["test0"; "test1"]
      ∧ "test0" ≠ "test1"
      ∧ Pd.csv_column t1 "test0" = Some labels1
      ∧ Pd.csv_column t2 "test0" = Some labels1
      ∧ Pd.csv_column t2 "test1" = Some labels2
      ∧ length labels1 = 1000 ∧ length labels2 = 1000.
Proof.
  apply (C10_two_runs (start (tweets 1000) [Typed "1"; Interrupt])
           (tweets 1000) (frame_of (tweets 1000)) [Typed "1"; Interrupt]).
  - apply start_lookup.
  - vm_compute. reflexivity.
  - vm_compute. reflexivity.
  - vm_compute. intros H%list_elem_of_In. simpl in H.
    destruct H as [H|[H|[]]]; discriminate H.
  - vm_compute. intros H%list_elem_of_In. simpl in H.
    destruct H as [H|[H|[]]]; discriminate H.
Defined.

(** C10 on the 3-row dataset: after two runs the file on disk is the
    original one, with no additional column. *)
Lemma C10_counterexample :
  let keys := [Typed "1"; Typed "3"; Typed "0"] in
  let w := start abc keys in
  ∃ r1 w1 r2 w2,
    main w = Some (r1, w1) ∧ main (rerun w1 keys) = Some (r2, w2)
    ∧ fs w1 !! path = Some abc ∧ fs w2 !! path = Some abc
    ∧ ¬ ∃ t2, fs w2 !! path = Some t2
              ∧ length (Pd.header t2) = length (Pd.header abc) + 2.
Proof.
  intros keys w.
  set (w1 := (run (frame_of abc) w).2).
  set (w2 := (run (frame_of abc) (rerun w1 keys)).2).
  exists (run (frame_of abc) w).1, w1,
    (run (frame_of abc) (rerun w1 keys)).1, w2.
  assert (fs w2 !! path = Some abc) as H2 by (vm_compute; reflexivity).
  split_and!; [by vm_compute|by vm_compute|by vm_compute|exact H2|].
  intros (t2 & Ht2 & Hlen). rewrite H2 in Ht2. injection Ht2 as <-.
  simpl in Hlen. lia.
Qed.

(** When the derived name is already a column, the run replaces that
    column instead of adding one. *)
Lemma label_name_taken :
  let w := start (relabelled 1000) [Interrupt] in
  let w' := (run (frame_of (relabelled 1000)) w).2 in
  main w = Some (run (frame_of (relabelled 1000)) w)
  ∧ Pd.header <$> fs w' !! path = Some ["text"; "test0"]
  ∧ (fs w' !! path) ≫= (λ t, Pd.csv_column t "test0")
    = Some (replicate 1000 "-1").
Proof. split_and!; by vm_compute. Qed.

(** * Further properties of the script *)

(** Whatever the files and the responses are, a run writes at most one
    file, and only the dataset: every other path of the file system holds
    after the run what it held before. This holds of the run on every
    frame, and so of every run of the program. *)
Theorem other_files_untouched w p :
  p ≠ path →
  (∀ df, fs (run df w).2 !! p = fs w !! p
         ∧ (writes (log (run df w).2) = writes (log w)
            ∨ ∃ t', writes (log (run df w).2) = writes (log w) ++ [(path, t')]))
  ∧ (∀ r w', main w = Some (r, w') →
             fs w' !! p = fs w !! p
             ∧ (writes (log w') = writes (log w)
                ∨ ∃ t', writes (log w') = writes (log w) ++ [(path, t')])).
Proof.
  intros Hp.
  assert (∀ df, fs (run df w).2 !! p = fs w !! p
                ∧ (writes (log (run df w).2) = writes (log w)
                   ∨ ∃ t', writes (log (run df w).2)
                           = writes (log w) ++ [(path, t')])) as Hrun.
  { intros df. rewrite run_eq, script_eq.
    destruct (annotate_untouched (boot df w)) as (_ & Hfsm & _ & Hw).
    set (m1 := (annotate (boot df w)).2) in *. cbn [boot world] in Hfsm, Hw.
    destruct (finalize_effect m1) as (_ & _ & [Heq|(t' & Hfs' & Hlog')]).
    - destruct (finalize m1) as [[e|[]] m2]; simpl in *; subst m2;
        rewrite Hfsm, Hw; auto.
    - destruct (finalize m1) as [[e|[]] m2]; simpl in *;
        rewrite Hfs', Hlog', writes_app, Hfsm, Hw, lookup_insert_ne by done;
        eauto. }
  split; [done|]. intros r w'. unfold main.
  destruct (fs w !! path) as [t|] eqn:Hfs; [|intros [= <- <-]; auto].
  destruct (Pd.read_csv t) as [[e|df]|] eqn:Hread; [| |done].
  - intros [= <- <-]. auto.
  - intros [= Heq]. specialize (Hrun df). rewrite Heq in Hrun. done.
Qed.

Lemma other_files_untouched_witness :
  let w := {| stdin := [Typed "1"];
              fs := <["notes.csv" := abc]> {[ path := tweets 1000 ]};
              log := [] |} in
  let w' := (run (frame_of (tweets 1000)) w).2 in
  fs w' !! "notes.csv" = fs w !! "notes.csv"
  ∧ (writes (log w') = writes (log w)
     ∨ ∃ t', writes (log w') = writes (log w) ++ [(path, t')]).
Proof.
  intros w w'.
  apply (proj2 (other_files_untouched w "notes.csv" ltac:(discriminate))
           (run (frame_of (tweets 1000)) w).1 w').
  vm_compute. reflexivity.
Defined.

(** A dataset without a column [text]: the first pass prints the legend
    and raises AttributeError before anything is asked, so no response is
    read and no label is stored. With 1000 rows the [finally] block saves
    a label column that is -1 throughout, and the AttributeError ends the
    run. *)
Theorem no_text_column w t df :
  fs w !! path = Some t → Pd.read_csv t = Some (inr df) →
  "text" ∉ Pd.header t → 0 < length (Pd.records t) →
  main w = Some (run df w)
  ∧ (annotate (boot df w)).1 = inl (AttributeError "text")
  ∧ ans (annotate (boot df w)).2 = replicate 1000 (-1)%Z
  ∧ stdin (world (annotate (boot df w)).2) = stdin w
  ∧ log (world (annotate (boot df w)).2) = log w ++ [Stdout (info 0 +:+ nl)]
  ∧ (length (Pd.records t) = 1000 →
     (run df w).1 = inl (AttributeError "text")
     ∧ stdin (run df w).2 = stdin w
     ∧ ∃ t', fs (run df w).2 !! path = Some t'
             ∧ Pd.csv_column t' (label_name (length (Pd.header t)))
               = Some (replicate 1000 "-1")).
Proof.
  intros Hfs Hread Htext Hrows.
  destruct (read_csv_inv _ _ Hread) as (Hh & Hidx & Hnames & Hcols).
  split; [by apply main_run with (t := t)|].
  assert (annotate (boot df w)
          = (inl (AttributeError "text"),
             {| edf := df; ans := replicate 1000 (-1)%Z;
                world := {| stdin := stdin w; fs := fs w;
                            log := log w ++ [Stdout (info 0 +:+ nl)] |} |}))
    as Hrun.
  { rewrite annotate_eq. cbn [boot edf]. rewrite Hidx.
    destruct (length (Pd.records t)) as [|n]; [lia|].
    rewrite rows_from_S, for_each_cons. unfold loop_body. cbn [fst snd].
    rewrite (body_no_text 0 _ _ (AttributeError "text")); [done|].
    apply getattr_row_missing; [by apply (text_not_made_up _ _ Hnames)|].
    rewrite <-(length_fmap fst). fold (Pd.columns df). rewrite Hcols.
    destruct (Pd.header t); [done|simpl; lia]. }
  rewrite Hrun. cbn [fst snd ans world stdin log]. split_and!; try done.
  intros H1000.
  destruct (run_saves w t df Hread (or_introl H1000))
    as (df' & Hset & Hres & Hin & Hfs' & _).
  rewrite Hrun in Hset, Hres, Hin. cbn [fst snd ans world stdin] in *.
  split_and!; try done.
  exists (Pd.to_csv df' false). split; [by rewrite Hfs', lookup_insert_eq|].
  rewrite (setitem_column _ _ _ _ Hset), fmap_replicate.
  by rewrite str_int_minus_one.
Qed.

Lemma no_text_column_witness :
  let w := start (untitled 1000) [Typed "1"; Typed "2"] in
  let df := frame_of (untitled 1000) in
  main w = Some (run df w)
  ∧ (run df w).1 = inl (AttributeError "text")
  ∧ stdin (run df w).2 = [Typed "1"; Typed "2"]
  ∧ ∃ t', fs (run df w).2 !! path = Some t'
          ∧ Pd.csv_column t' (label_name 2) = Some (replicate 1000 "-1").
Proof.
  intros w df.
  destruct (no_text_column w (untitled 1000) (frame_of (untitled 1000)))
    as (Hmain & _ & _ & _ & _ & Hrun).
  - apply start_lookup.
  - vm_compute. reflexivity.
  - intros H%list_elem_of_In. simpl in H.
    destruct H as [H|[H|[]]]; discriminate H.
  - vm_compute. lia.
  - split; [exact Hmain|]. apply Hrun. vm_compute. reflexivity.
Defined.

(** ** A dataset that cannot be loaded *)






(** ** A dataset without rows *)

Lemma replicate_seq_fmap {A} (f : nat → A) (x : A) n i0 :
  (∀ i, i0 ≤ i < i0 + n → f i = x) → f <$> seq i0 n = replicate n x.
Proof.
  revert i0. induction n as [|n IH]; intros i0 Hf; [done|].
  simpl. rewrite Hf by lia. f_equal. apply IH. intros i Hi. apply Hf. lia.
Qed.

(** Attaching to a frame without rows: the frame takes the length of the
    value, its columns are filled with missing values. *)
Lemma setitem_on_no_rows df col (a : list Z) :
  Pd.index df = 0 → 0 < length a → col ∉ Pd.columns df →
  Pd.setitem df col a
  = inr {| Pd.index := length a;
           Pd.series := ((λ c, (c.1, replicate (length a) Pd.NaN)) <$> Pd.series df)
                        ++ [(col, Pd.Int64 <$> a)] |}.
Proof.
  intros H0 Ha Hcol. unfold Pd.setitem.
  pose proof (columns_ensure_valid_index df (length a)) as Hc.
  revert Hc. unfold Pd.ensure_valid_index.
  rewrite (decide_True (P := _ ∧ _)) by done. intros Hc.
  cbn [Pd.index]. rewrite decide_True by done.
  rewrite Hc. by rewrite decide_False by done.
Qed.

Lemma to_csv_filled (l : list (string * list Pd.cell)) col (x : Z) n :
  Pd.records
    (Pd.to_csv {| Pd.index := n;
                  Pd.series := ((λ c, (c.1, replicate n Pd.NaN)) <$> l)
                               ++ [(col, Pd.Int64 <$> replicate n x)] |} false)
  = replicate n (replicate (length l) "" ++ [str_int x]).
Proof.
  cbn [Pd.to_csv Pd.records Pd.index Pd.series app].
  apply replicate_seq_fmap. intros i Hi. rewrite fmap_app. f_equal.
  - induction l as [|c l IH]; [done|]. rewrite !fmap_cons. cbn [snd length].
    rewrite lookup_replicate_2 by lia. cbn [default replicate Pd.render].
    by rewrite IH.
  - simpl. rewrite fmap_replicate, lookup_replicate_2 by lia. done.
Qed.

(** A dataset with a header line and no rows: nothing is printed or read
    and the loop ends at once; the [finally] block gives the frame the
    1000 index labels of the buffer, so that the file written has 1000
    records, each with an empty field for every original column and -1
    in the label column, under the column names pandas read and the new
    name. The run ends without an error. *)
Theorem empty_dataset w t df :
  fs w !! path = Some t → Pd.read_csv t = Some (inr df) →
  Pd.records t = [] →
  let name := label_name (length (Pd.header t)) in
  name ∉ Pd.header t →
  main w = Some (run df w)
  ∧ Pd.parsed_names (Pd.header t) = Some (Pd.columns df)
  ∧ (run df w).1 = inr tt
  ∧ stdin (run df w).2 = stdin w
  ∧ ∃ t', log (run df w).2 = log w ++ [FileWrite path t']
          ∧ fs (run df w).2 = <[path := t']> (fs w)
          ∧ Pd.header t' = Pd.columns df ++ [name]
          ∧ Pd.records t'
            = replicate 1000 (replicate (length (Pd.header t)) "" ++ ["-1"]).
Proof.
  intros Hfs Hread Hrec name Hfresh.
  destruct (read_csv_inv _ _ Hread) as (Hh & Hidx & Hnames & Hcols).
  rewrite Hrec in Hidx. simpl in Hidx.
  split; [by apply main_run with (t := t)|]. split; [done|].
  pose proof (label_name_not_made_up _ _ _ Hnames Hfresh) as Hnew.
  fold name in Hnew.
  rewrite run_eq, script_eq.
  assert (annotate (boot df w) = (inr tt, boot df w)) as ->.
  { rewrite annotate_eq. cbn [boot edf]. by rewrite Hidx. }
  cbn [fst snd]. run_finalize. cbn [boot edf ans world].
  rewrite Hcols. fold name.
  rewrite (setitem_on_no_rows df name (Np.full 1000 (-1)));
    [|done|unfold Np.full; rewrite length_replicate; lia|done].
  cbn [fst snd world stdin log fs edf ans]. split_and!; try done.
  eexists. split_and!; try reflexivity.
  - unfold Pd.to_csv, Pd.columns. cbn [Pd.header Pd.series app].
    rewrite fmap_app. f_equal. by apply fmap_fst_keep.
  - unfold Np.full. rewrite length_replicate, to_csv_filled.
    rewrite <-Hcols. unfold Pd.columns. by rewrite length_fmap.
Qed.

Lemma empty_dataset_witness :
  let w := start header_only [Typed "1"] in
  let df := frame_of header_only in
  main w = Some (run df w)
  ∧ Pd.parsed_names ["id"; "text"] = Some (Pd.columns df)
  ∧ (run df w).1 = inr tt
  ∧ stdin (run df w).2 = [Typed "1"]
  ∧ ∃ t', log (run df w).2 = log w ++ [FileWrite path t']
          ∧ fs (run df w).2 = <[path := t']> (fs w)
          ∧ Pd.header t' = Pd.columns df ++ ["test0"]
          ∧ Pd.records t' = replicate 1000 (replicate 2 "" ++ ["-1"]).
Proof.
  intros w df. apply (empty_dataset w header_only (frame_of header_only)).
  - apply start_lookup.
  - reflexivity.
  - reflexivity.
  - intros H%list_elem_of_In. simpl in H.
    destruct H as [H|[H|[]]]; discriminate H.
Defined.

(** ** The run on arbitrary responses *)

Lemma split_entered keys : ∀ n,
  ∃ ss, keys = (Typed <$> ss) ++ drop (n `min` length (entered keys)) keys
        ∧ Forall2 coerces ss (take n (entered keys))
        ∧ length ss = n `min` length (entered keys).
Proof.
  induction keys as [|[val|] keys IH]; intros n.
  - exists []. simpl. rewrite Nat.min_0_r, take_nil. by split_and!.
  - destruct (Np.coerce val) as [e|z] eqn:Hz.
    + exists []. simpl. rewrite Hz. simpl. rewrite Nat.min_0_r, take_nil.
      by split_and!.
    + destruct n as [|n].
      * exists []. simpl. by split_and!.
      * destruct (IH n) as (ss & Heq & Hzs & Hlen). exists (val :: ss).
        cbn [length entered]. rewrite Hz. cbn [length].
        rewrite <-Nat.succ_min_distr. cbn [drop take fmap list_fmap app].
        split_and!.
        -- f_equal. exact Heq.
        -- by constructor.
        -- by rewrite Hlen.
  - exists []. simpl. rewrite Nat.min_0_r, take_nil. by split_and!.
Qed.

Lemma stops_after_entered keys : ∀ i size,
  i < size →
  is_Some (stops_with i size (drop (length (entered keys)) keys)).
Proof.
  induction keys as [|[val|] keys IH]; intros i size Hi; simpl.
  - eauto.
  - destruct (Np.coerce val) as [e|z] eqn:Hz; simpl.
    + rewrite decide_True, Hz by done. eauto.
    + by apply IH.
  - eauto.
Qed.

(** On a dataset of 1000 rows with a [text] column, whatever ASCII lines
    and interrupts come on standard input: the label column of the saved
    file holds the integers of the leading acceptable entries (at most
    1000 of them) and -1 below; the run ends without an error exactly
    when the first 1000 responses are all acceptable entries, and then it
    has read exactly these 1000 lines; otherwise it ends with the
    exception of the first response that is not one. *)
Theorem run_on_any_input w t df :
  fs w !! path = Some t → Pd.read_csv t = Some (inr df) →
  length (Pd.records t) = 1000 → "text" ∈ Pd.header t →
  ascii_input (stdin w) →
  let zs := take 1000 (entered (stdin w)) in
  main w = Some (run df w)
  ∧ (∃ t', fs (run df w).2 !! path = Some t'
           ∧ Pd.csv_column t' (label_name (length (Pd.header t)))
             = Some ((str_int <$> zs) ++ replicate (1000 - length zs) "-1"))
  ∧ ((run df w).1 = inr tt ↔ 1000 ≤ length (entered (stdin w)))
  ∧ (1000 ≤ length (entered (stdin w)) →
     stdin (run df w).2 = drop 1000 (stdin w))
  ∧ (length (entered (stdin w)) < 1000 →
     ∃ e, stops_with (length (entered (stdin w))) 1000
            (drop (length (entered (stdin w))) (stdin w)) = Some e
          ∧ (run df w).1 = inl e).
Proof.
  intros Hfs Hread Hrows Htext _ zs.
  destruct (read_csv_inv _ _ Hread) as (_ & Hidx & _).
  split; [by apply main_run with (t := t)|].
  destruct (run_saves w t df Hread (or_introl Hrows))
    as (df' & Hset & Hres & Hin & Hfs' & _).
  destruct (split_entered (stdin w) 1000) as (ss & Heq & Hzs & Hlen).
  fold zs in Hzs. set (N := 1000 `min` length (entered (stdin w))) in *.
  assert (∃ r, outcome_after 1000 N (drop N (stdin w)) = Some r
               ∧ (r = inr tt ↔ 1000 ≤ length (entered (stdin w)))
               ∧ (length (entered (stdin w)) < 1000 →
                  ∃ e, stops_with (length (entered (stdin w))) 1000
                         (drop (length (entered (stdin w))) (stdin w)) = Some e
                       ∧ r = inl e))
    as (r & Hout & Hiff & Hstop).
  { unfold outcome_after.
    destruct (decide (N = 1000)) as [HN|HN].
    - exists (inr tt). split; [done|]. split; [|lia]. split; [lia|done].
    - assert (N = length (entered (stdin w))) as HN' by lia.
      destruct (stops_after_entered (stdin w) N 1000) as [e He]; [lia|].
      rewrite <-HN' in He. rewrite decide_True by lia.
      exists (inl e). rewrite <-HN', He. split; [done|]. split.
      + split; [done|lia].
      + intros _. eauto. }
  destruct (annotate_run df w ss zs (drop N (stdin w)) r) as (Hr & Hans & Hrest);
    [by apply text_column with (t := t)|done|done|lia
    |by rewrite Hidx, Hrows, Hlen|].
  split_and!.
  - exists (Pd.to_csv df' false). split; [by rewrite Hfs', lookup_insert_eq|].
    rewrite (setitem_column _ _ _ _ Hset), Hans, fmap_app, fmap_replicate.
    by rewrite str_int_minus_one.
  - by rewrite Hres, Hr.
  - intros Hge. rewrite Hin, Hrest by (by apply Hiff). f_equal. lia.
  - intros Hlt. destruct (Hstop Hlt) as (e & He & ->). exists e.
    by rewrite Hres, Hr.
Qed.

Lemma run_on_any_input_witness :
  let w := start (tweets 1000) [Typed "3"; Typed " 4 "; Typed "four"; Typed "1"] in
  let df := frame_of (tweets 1000) in
  main w = Some (run df w)
  ∧ (∃ t', fs (run df w).2 !! path = Some t'
           ∧ Pd.csv_column t' (label_name 2)
             = Some ((str_int <$> [3; 4]%Z) ++ replicate (1000 - 2) "-1"))
  ∧ ((run df w).1 = inr tt ↔ 1000 ≤ 2)
  ∧ (1000 ≤ 2 → stdin (run df w).2 = [])
  ∧ (2 < 1000 →
     ∃ e, stops_with 2 1000 [Typed "four"; Typed "1"] = Some e
          ∧ (run df w).1 = inl e).
Proof.
  intros w df.
  apply (run_on_any_input w (tweets 1000) (frame_of (tweets 1000))).
  - apply start_lookup.
  - vm_compute. reflexivity.
  - vm_compute. reflexivity.
  - apply list_elem_of_In. simpl. auto.
  - repeat constructor.
Defined.

(** ** What the operator sees *)

(** The console of the loop, for a dataset with a [text] column and
    ASCII input: after N good entries it shows, for each row that was
    reached and in row order, the legend headed by the 1-based row number
    and then the question with the row's text, once each. The rows
    reached are the N rows answered and, when the loop is stopped, the
    row at which it stops. *)
Theorem console_transcript w df ss zs rest r :
  "text" ∈ Pd.columns df →
  stdin w = (Typed <$> ss) ++ rest →
  ascii_input (stdin w) →
  Forall2 coerces ss zs →
  length ss ≤ 1000 →
  outcome_after (Pd.index df) (length ss) rest = Some r →
  log (world (annotate (boot df w)).2)
  = log w ++ transcript df (if r is inr _ then length ss else S (length ss)).
Proof.
  intros Htext Hin _ Hzs Hle Hout.
  by destruct (annotate_log w df ss zs rest r Htext Hin Hzs Hle Hout).
Qed.

Lemma console_transcript_witness :
  let w := start abc [Typed "1"; Typed "x"] in
  log (world (annotate (boot (frame_of abc) w)).2)
  = log w ++ transcript (frame_of abc) 2.
Proof.
  intros w.
  apply (console_transcript w (frame_of abc) ["1"] [1%Z] [Typed "x"]
           (inl (ValueError_literal "x"))).
  - apply list_elem_of_In. simpl. auto.
  - reflexivity.
  - repeat constructor.
  - repeat constructor.
  - simpl. lia.
  - reflexivity.
Defined.

(** The question for row [i] shows the field of record [i] under the
    first column named [text], as it is in the file; a field that is read
    as missing (the empty field, "NA", "null", "nan", ...) is shown as the
    text "nan". *)
Theorem question_shows_field t df fields i f :
  Pd.read_csv t = Some (inr df) →
  Pd.csv_column t "text" = Some fields →
  fields !! i = Some f →
  shown df i
  = [Stdout (info i +:+ nl);
     Stdout ("Tweet:" +:+ nl +:+ nl
             +:+ (if decide (f ∈ Pd.na_values) then "nan" else f)
             +:+ nl +:+ nl +:+ "Political Opinion (0-4): ")].
Proof.
  intros Hread Hcol Hf.
  destruct (read_csv_first_named _ _ _ _ Hread Hcol) as (j & Hfirst); [done|].
  rewrite (shown_text df i (Pd.parse_field f)).
  - unfold question, Pd.parse_field. by destruct (decide _).
  - rewrite (getattr_first_named _ _ _ _ i Hfirst).
    by rewrite list_lookup_fmap, Hf.
Qed.

Lemma question_shows_field_witness :
  shown (frame_of (texts ["good morning"; "NA"])) 1
  = [Stdout (info 1 +:+ nl);
     Stdout ("Tweet:" +:+ nl +:+ nl
             +:+ (if decide ("NA" ∈ Pd.na_values) then "nan" else "NA")
             +:+ nl +:+ nl +:+ "Political Opinion (0-4): ")].
Proof.
  apply (question_shows_field (texts ["good morning"; "NA"])
           (frame_of (texts ["good morning"; "NA"]))
           ["good morning"; "NA"] 1 "NA").
  - reflexivity.
  - reflexivity.
  - reflexivity.
Defined.

(** ** What the save keeps of the file *)

Lemma written_back_cases f :
  written_back f = if decide (f ∈ Pd.na_values) then "" else f.
Proof. unfold written_back, Pd.parse_field. by destruct (decide _). Qed.

(** On a dataset of 1000 rows the save keeps every named column other
    than the label column in place: its fields are written as they were
    read, except that a field read as missing is written as the empty
    field. *)
Theorem other_columns_kept w t df name fields :
  fs w !! path = Some t → Pd.read_csv t = Some (inr df) →
  length (Pd.records t) = 1000 →
  Pd.csv_column t name = Some fields →
  name ≠ "" →
  name ≠ label_name (length (Pd.header t)) →
  main w = Some (run df w)
  ∧ ∃ t', fs (run df w).2 !! path = Some t'
          ∧ Pd.csv_column t' name
            = Some ((λ f, if decide (f ∈ Pd.na_values) then "" else f)
                      <$> fields).
Proof.
  intros Hfs Hread Hrows Hcol Hname Hne.
  destruct (read_csv_inv _ _ Hread) as (_ & Hidx & _).
  split; [by apply main_run with (t := t)|].
  destruct (run_saves w t df Hread (or_introl Hrows))
    as (df' & Hset & _ & _ & Hfs' & _).
  destruct (setitem_inv _ _ _ _ Hset) as (Hi' & _ & Hl).
  destruct (annotate_untouched (boot df w)) as (_ & _ & Hlen & _).
  rewrite boot_ans_length in Hlen.
  destruct (read_csv_first_named _ _ _ _ Hread Hcol Hname) as (j & Hfirst).
  eapply setitem_first_named_other in Hfirst;
    [|exact Hset|by rewrite Hidx, Hrows, Hlen|done].
  destruct Hfirst as [Hj Hleast].
  exists (Pd.to_csv df' false). split; [by rewrite Hfs', lookup_insert_eq|].
  rewrite (csv_column_to_csv df' name j _ Hj Hleast).
  - f_equal. rewrite <-list_fmap_compose. apply list_fmap_ext.
    intros _ f _. apply written_back_cases.
  - apply csv_column_inv in Hcol as (j0 & _ & _ & ->).
    by rewrite !length_fmap, Hi', Hlen.
Qed.

Lemma other_columns_kept_witness :
  let w := start (texts (replicate 1000 "NA")) [Interrupt] in
  let df := frame_of (texts (replicate 1000 "NA")) in
  main w = Some (run df w)
  ∧ ∃ t', fs (run df w).2 !! path = Some t'
          ∧ Pd.csv_column t' "text"
            = Some ((λ f, if decide (f ∈ Pd.na_values) then "" else f)
                      <$> replicate 1000 "NA").
Proof.
  intros w df.
  apply (other_columns_kept w (texts (replicate 1000 "NA"))
           (frame_of (texts (replicate 1000 "NA")))).
  - apply start_lookup.
  - vm_compute. reflexivity.
  - vm_compute. reflexivity.
  - vm_compute. reflexivity.
  - discriminate.
  - vm_compute. discriminate.
Defined.

(** ** The coercion of entries *)

(** The buffer holds 64-bit integers at every stage: whatever the dataset
    and the responses, each entry of the buffer after the loop, and of the
    buffer the [finally] block attaches, lies between -2^63 and 2^63 - 1. *)
Theorem buffer_in_int64 df w :
  Forall in_int64 (ans (annotate (boot df w)).2)
  ∧ Forall in_int64 (ans (script (boot df w)).2).
Proof.
  assert (Forall in_int64 (ans (annotate (boot df w)).2)) as Ha.
  { rewrite annotate_eq. apply for_each_in_int64. cbn [boot ans].
    apply Forall_replicate. by vm_compute. }
  split; [done|]. rewrite script_eq.
  pose proof (finalize_ans (annotate (boot df w)).2) as Hf.
  destruct (finalize _) as [[e|[]] m2]; simpl in *; by rewrite Hf.
Qed.

(** Blanks around an entry do not matter: an entry that coerces to [z]
    still coerces to [z] with white space before and after it, and the
    store into the buffer has the same result. *)
Theorem blanks_around_entry (a : list Z) i val z ws1 ws2 :
  coerces val z → all_space ws1 = true → all_space ws2 = true →
  Np.coerce (ws1 +:+ val +:+ ws2) = inr z
  ∧ Np.setitem a i (ws1 +:+ val +:+ ws2) = Np.setitem a i val.
Proof.
  unfold coerces, all_space. intros Hz H1 H2.
  assert (PyInt.int (ws1 +:+ val +:+ ws2) = PyInt.int val) as Hint.
  { unfold PyInt.int. by rewrite !chars_append, strip_spaces. }
  assert (Np.coerce (ws1 +:+ val +:+ ws2) = inr z) as Hc.
  { revert Hz. unfold Np.coerce. rewrite Hint.
    destruct (PyInt.int val); [|done]. by destruct (_ && _)%bool. }
  split; [done|]. unfold Np.setitem. by rewrite Hc, Hz.
Qed.

Lemma blanks_around_entry_witness :
  Np.coerce ("  " +:+ "-2" +:+ " ") = inr (-2)%Z
  ∧ Np.setitem [0; 0; 0]%Z 1 ("  " +:+ "-2" +:+ " ")
    = Np.setitem [0; 0; 0]%Z 1 "-2".
Proof.
  apply (blanks_around_entry [0; 0; 0]%Z 1 "-2" (-2)%Z "  " " ");
    reflexivity.
Defined.

(** ** Labels read back *)

(** A label as the run writes it to the file is an entry that coerces
    back to the same integer: for every 64-bit [z], the decimal text of
    [z] coerces to [z], and storing that text in the buffer stores [z]. *)
Theorem label_text_round_trip (a : list Z) i z :
  in_int64 z → i < length a →
  Np.coerce (str_int z) = inr z
  ∧ Np.setitem a i (str_int z) = inr (<[i := z]> a).
Proof.
  intros Hz Hi.
  assert (Np.coerce (str_int z) = inr z) as Hc.
  { unfold Np.coerce. rewrite (int_str_int z Hz). destruct Hz as [Hlo Hhi].
    by rewrite (proj2 (Z.leb_le _ _) Hlo), (proj2 (Z.leb_le _ _) Hhi). }
  split; [done|]. unfold Np.setitem. by rewrite decide_True, Hc.
Qed.

Lemma label_text_round_trip_witness :
  Np.coerce (str_int (-1)) = inr (-1)%Z
  ∧ Np.setitem [0; 0]%Z 1 (str_int (-1)) = inr (<[1 := (-1)%Z]> [0; 0]%Z).
Proof.
  apply (label_text_round_trip [0; 0]%Z 1 (-1)%Z).
  - by vm_compute.
  - simpl. lia.
Defined.
